(** * LeetCode Solution Assistant (browser extension front end)

    Shallow embedding of [popup.js]: the Markdown renderer
    ([escapeHtml], [renderMarkdown]) and the question/session
    synchronisation code of the [App] component ([bootstrap],
    [ensureQuestionInitialized], [hydrateMessages], [resetSession],
    [detectQuestionForTab], [handleReloadForNewQuestion], ...).

    A JavaScript string is a sequence of UTF-16 code units; it is
    modelled as [list N], one [N] per code unit.  Regular expressions are
    translated to first-match functions that follow the backtracking order
    of the JavaScript engine; each translation quotes its pattern. *)

From Stdlib Require Import NArith List String Ascii Bool Arith Lia DecimalString.
From stdpp Require Import base option list gmap.
Import ListNotations.

Local Open Scope N_scope.
Local Open Scope list_scope.

(* ================================================================== *)
(** * Part I. JavaScript strings *)
(* ================================================================== *)

Abbreviation jstring := (list N).

(** Code units of an ASCII literal. *)
Definition lit (s : string) : jstring :=
  List.map N_of_ascii (list_ascii_of_string s).

Arguments lit : simpl never.

(** [String(n)] for a non-negative integer. *)
Definition decimal (n : nat) : jstring :=
  lit (NilZero.string_of_uint (Nat.to_uint n)).

Definition c_tab : N := 9.
Definition c_lf : N := 10.
Definition c_cr : N := 13.
Definition c_space : N := 32.
Definition c_dquote : N := 34.
Definition c_hash : N := 35.
Definition c_dollar : N := 36.
Definition c_amp : N := 38.
Definition c_squote : N := 39.
Definition c_lparen : N := 40.
Definition c_rparen : N := 41.
Definition c_star : N := 42.
Definition c_plus : N := 43.
Definition c_minus : N := 45.
Definition c_dot : N := 46.
Definition c_slash : N := 47.
Definition c_lt : N := 60.
Definition c_gt : N := 62.
Definition c_lbracket : N := 91.
Definition c_rbracket : N := 93.
Definition c_underscore : N := 95.
Definition c_backtick : N := 96.

(** LineTerminator: LF, CR, U+2028, U+2029.  The pattern [.] matches every
    code unit but these; [^] and [$] under the [m] flag look for them. *)
Definition isLineTerminator (c : N) : bool :=
  (c =? 10) || (c =? 13) || (c =? 0x2028) || (c =? 0x2029).

(** [\s], which is also the set stripped by [trim] and [trimEnd]:
    WhiteSpace and LineTerminator. *)
Definition isWhiteSpace (c : N) : bool :=
  ((9 <=? c) && (c <=? 13)) || (c =? 32) || (c =? 0xA0) || (c =? 0x1680)
  || ((0x2000 <=? c) && (c <=? 0x200A))
  || (c =? 0x2028) || (c =? 0x2029) || (c =? 0x202F) || (c =? 0x205F)
  || (c =? 0x3000) || (c =? 0xFEFF).

(** [\d] *)
Definition isDigit (c : N) : bool := (48 <=? c) && (c <=? 57).

(** [.] *)
Definition isDot (c : N) : bool := negb (isLineTerminator c).

(** Length of the longest prefix whose code units all satisfy [p]
    (what a greedy [p*] takes). *)
Fixpoint spanLen (p : N -> bool) (s : jstring) : nat :=
  match s with
  | [] => O
  | c :: s' => if p c then S (spanLen p s') else O
  end.

Fixpoint startsWith (p s : jstring) : bool :=
  match p, s with
  | [], _ => true
  | _ :: _, [] => false
  | a :: p', b :: s' => (a =? b) && startsWith p' s'
  end.

(** Offset of the first occurrence of [p] in [s]. *)
Fixpoint indexOf (p s : jstring) : option nat :=
  if startsWith p s then Some O
  else match s with
       | [] => None
       | _ :: s' => option_map S (indexOf p s')
       end.

Definition trimStart (s : jstring) : jstring :=
  drop (spanLen isWhiteSpace s) s.

Definition trimEnd (s : jstring) : jstring :=
  rev (trimStart (rev s)).

Definition trim (s : jstring) : jstring := trimEnd (trimStart s).

(** [s.split(sep)] for a separator of one code unit. *)
Fixpoint splitOn (sep : N) (s : jstring) : list jstring :=
  match s with
  | [] => [[]]
  | c :: s' =>
      if c =? sep then [] :: splitOn sep s'
      else match splitOn sep s' with
           | b :: bs => (c :: b) :: bs
           | [] => [[c]]
           end
  end.

(** ** [String.prototype.replace] with a string pattern

    The replacement text of [str.replace(pattern, replacement)] is not
    inserted verbatim: [$$] stands for a dollar sign, [$&] for the matched
    text, [$`] for the text before the match and [$'] for the text after
    it.  A string pattern has no capture groups, so [$1] ... [$99] and
    [$<] stay as written. *)
Fixpoint getSubstitution (matched before after : jstring) (r : jstring) : jstring :=
  match r with
  | [] => []
  | c :: r' =>
      if c =? c_dollar then
        match r' with
        | d :: r'' =>
            if d =? c_dollar then c_dollar :: getSubstitution matched before after r''
            else if d =? c_amp then matched ++ getSubstitution matched before after r''
            else if d =? c_backtick then before ++ getSubstitution matched before after r''
            else if d =? c_squote then after ++ getSubstitution matched before after r''
            else c :: getSubstitution matched before after r'
        | [] => [c]
        end
      else c :: getSubstitution matched before after r'
  end.

(** [text.replace(pat, rep)], [pat] a string: first occurrence only. *)
Definition replaceFirst (pat rep text : jstring) : jstring :=
  match indexOf pat text with
  | Some i =>
      let before := take i text in
      let after := drop (i + length pat) text in
      before ++ getSubstitution pat before after rep ++ after
  | None => text
  end.

(** ** [String.prototype.replace] with a global regular expression

    A [matcher] is one pattern together with its replacement: given
    whether the position is at the start of a line ([^] under the [m]
    flag) and the input from that position on, it returns the replacement
    text and how many code units the match takes.  Every pattern of this
    program takes at least one code unit.  [replaceAll] scans from left to
    right, resumes after each match, and copies what no match covers. *)
Definition matcher := bool -> jstring -> option (jstring * nat).

Fixpoint replaceAll (m : matcher) (bol : bool) (skip : nat) (s : jstring) : jstring :=
  match s with
  | [] => []
  | c :: s' =>
      match skip with
      | S k => replaceAll m (isLineTerminator c) k s'
      | O =>
          match m bol s with
          | Some (rep, n) => rep ++ replaceAll m (isLineTerminator c) (Nat.pred n) s'
          | None => c :: replaceAll m (isLineTerminator c) 0 s'
          end
      end
  end.

Definition replaceRegex (m : matcher) (s : jstring) : jstring :=
  replaceAll m true 0 s.

(* ================================================================== *)
(** * Part II. The Markdown renderer *)
(* ================================================================== *)

(** [str.replace(/c/g, rep)] for a single code unit [c]. *)
Definition replaceChar (c : N) (rep : jstring) (s : jstring) : jstring :=
  flat_map (fun x => if x =? c then rep else [x]) s.

Definition escapeHtml (str : jstring) : jstring :=
  replaceChar c_squote (lit "&#39;")
    (replaceChar c_dquote (lit "&quot;")
      (replaceChar c_gt (lit "&gt;")
        (replaceChar c_lt (lit "&lt;")
          (replaceChar c_amp (lit "&amp;") str)))).

(** *** Step 1: fenced code blocks, "/```([\s\S]*?)```/g"

    At an opening fence the lazy group stops at the first closing fence
    after it.  The callback pushes the escaped block and returns the
    placeholder that carries the block's index. *)
Definition fence : jstring := lit "```".

Definition placeholder (index : nat) : jstring :=
  lit "@@CODEBLOCK" ++ decimal index ++ lit "@@".

Definition codeBlockHtml (code : jstring) : jstring :=
  lit "<pre><code>" ++ escapeHtml (trimEnd code) ++ lit "</code></pre>".

Fixpoint extractCodeBlocks (skip index : nat) (s : jstring) : jstring * list jstring :=
  match s with
  | [] => ([], [])
  | c :: s' =>
      match skip with
      | S k => extractCodeBlocks k index s'
      | O =>
          if startsWith fence s then
            match indexOf fence (drop 3 s) with
            | Some k =>
                let '(text, blocks) := extractCodeBlocks (k + 5) (S index) s' in
                (placeholder index ++ text, codeBlockHtml (take k (drop 3 s)) :: blocks)
            | None =>
                let '(text, blocks) := extractCodeBlocks 0 index s' in
                (c :: text, blocks)
            end
          else
            let '(text, blocks) := extractCodeBlocks 0 index s' in
            (c :: text, blocks)
      end
  end.

(** *** "\s+(.+)": what the two greedy groups take

    [\s+] first takes the whole run of white space.  When a code unit
    follows the run it is not white space, so [.+] starts there.  When the
    run reaches the end of the input, [\s+] gives code units back until
    [.+] can start, that is at the last white-space code unit (other than
    the first of the run) that is not a line terminator.  [.+] then runs
    to the end of the line.  Result: the length taken by [\s+] and the
    length taken by [.+]. *)
Fixpoint lastIndexWhere (p : N -> bool) (s : jstring) : option nat :=
  match s with
  | [] => None
  | c :: s' =>
      match lastIndexWhere p s' with
      | Some i => Some (S i)
      | None => if p c then Some O else None
      end
  end.

Definition spaceThenText (s : jstring) : option (nat * nat) :=
  let w := spanLen isWhiteSpace s in
  match w with
  | O => None
  | S _ =>
      match drop w s with
      | _ :: _ => Some (w, spanLen isDot (drop w s))
      | [] =>
          match lastIndexWhere isDot (drop 1 s) with
          | Some i => Some (S i, spanLen isDot (drop (S i) s))
          | None => None
          end
      end
  end.

(** *** Step 3: headings, "/^(#{1,6})\s+(.+)$/gm" *)
Definition headingMatcher : matcher := fun bol s =>
  if bol then
    let level := spanLen (N.eqb c_hash) s in
    if (1 <=? level)%nat && (level <=? 6)%nat then
      match spaceThenText (drop level s) with
      | Some (k, n) =>
          let content := take n (drop (level + k) s) in
          Some (lit "<h" ++ decimal level ++ lit ">" ++ trim content
                  ++ lit "</h" ++ decimal level ++ lit ">",
                (level + k + n)%nat)
      | None => None
      end
    else None
  else None.

(** *** Step 4: block quotes, pattern [^>\s?] followed by group 1, the
    greedy dot-star, and [$]; flags [g] and [m] *)
Definition blockquoteMatcher : matcher := fun bol s =>
  if bol then
    match s with
    | c :: r =>
        if c =? c_gt then
          let sp := match r with
                    | d :: _ => if isWhiteSpace d then 1%nat else 0%nat
                    | [] => 0%nat
                    end in
          let n := spanLen isDot (drop sp r) in
          Some (lit "<blockquote><p>" ++ take n (drop sp r) ++ lit "</p></blockquote>",
                (1 + sp + n)%nat)
        else None
    | [] => None
    end
  else None.

(** *** Steps 5 and 6: lists, "/^(?:\s*\d+\.\s+.+\n?)+/gm" and
    "/^(?:\s*[-*+]\s+.+\n?)+/gm"

    One round of the group: the greedy [\s*] takes the white-space run
    (line terminators included), the marker follows, then [\s+.+] as above
    and the optional line feed.  Nothing follows the group, so each round
    keeps its first successful choice and the rounds go on while one
    succeeds.  Only the first round is anchored by [^]. *)
Definition orderedMarker (s : jstring) : option nat :=
  let d := spanLen isDigit s in
  match d with
  | O => None
  | S _ =>
      match drop d s with
      | c :: _ => if c =? c_dot then Some (S d) else None
      | [] => None
      end
  end.

Definition isBullet (c : N) : bool :=
  (c =? c_minus) || (c =? c_star) || (c =? c_plus).

Definition bulletMarker (s : jstring) : option nat :=
  match s with
  | c :: _ => if isBullet c then Some 1%nat else None
  | [] => None
  end.

(** Length of one round at the head of [s]. *)
Definition listItemLen (marker : jstring -> option nat) (s : jstring) : option nat :=
  let a := spanLen isWhiteSpace s in
  match marker (drop a s) with
  | Some m =>
      match spaceThenText (drop (a + m) s) with
      | Some (k, n) =>
          let nl := match drop (a + m + k + n) s with
                    | c :: _ => if c =? c_lf then 1%nat else 0%nat
                    | [] => 0%nat
                    end in
          Some (a + m + k + n + nl)%nat
      | None => None
      end
  | None => None
  end.

(** Total length of the successive rounds from the head of [s]; [skip]
    counts the code units of the current round still to step over. *)
Fixpoint listBlockLen (marker : jstring -> option nat) (skip : nat) (s : jstring) : nat :=
  match skip with
  | S k =>
      match s with
      | _ :: s' => S (listBlockLen marker k s')
      | [] => O
      end
  | O =>
      match listItemLen marker s with
      | Some (S k) =>
          match s with
          | _ :: s' => S (listBlockLen marker k s')
          | [] => O
          end
      | _ => O
      end
  end.

(** [line.replace(/^\s*<marker>\s+/, "")]: no [g], no [m], so the pattern
    applies at the head of the line only. *)
Definition stripMarker (marker : jstring -> option nat) (line : jstring) : jstring :=
  let a := spanLen isWhiteSpace line in
  match marker (drop a line) with
  | Some m =>
      match spanLen isWhiteSpace (drop (a + m) line) with
      | O => line
      | S w => drop (a + m + S w) line
      end
  | None => line
  end.

Definition listItems (marker : jstring -> option nat) (block : jstring) : jstring :=
  concat
    (List.map (fun line => lit "<li>" ++ line ++ lit "</li>")
       (List.map (stripMarker marker) (splitOn c_lf (trim block)))).

Definition listMatcher (marker : jstring -> option nat) (tag : jstring) : matcher :=
  fun bol s =>
    if bol then
      match listBlockLen marker 0 s with
      | O => None
      | S n =>
          Some (lit "<" ++ tag ++ lit ">" ++ listItems marker (take (S n) s)
                  ++ lit "</" ++ tag ++ lit ">",
                S n)
      end
    else None.

Definition orderedListMatcher : matcher := listMatcher orderedMarker (lit "ol").
Definition unorderedListMatcher : matcher := listMatcher bulletMarker (lit "ul").

(** *** Step 7: inline code, "/`([^`]+)`/g"

    The group is greedy and runs up to the next backtick; the match fails
    when the run is empty or no backtick closes it. *)
Definition inlineCodeMatcher : matcher := fun _ s =>
  match s with
  | c :: r =>
      if c =? c_backtick then
        let n := spanLen (fun x => negb (x =? c_backtick)) r in
        match n, drop n r with
        | S _, _ :: _ => Some (lit "<code>" ++ escapeHtml (take n r) ++ lit "</code>", (n + 2)%nat)
        | _, _ => None
        end
      else None
  | [] => None
  end.

(** *** Step 8: bold, "/\*\*(.+?)\*\*/g"

    The lazy group takes the fewest code units (at least one, none of
    them a line terminator) after which two stars follow. *)
Fixpoint boldClose (r : jstring) : option nat :=
  match r with
  | [] => None
  | c :: r' =>
      if isLineTerminator c then None
      else if startsWith [c_star; c_star] r' then Some 1%nat
      else option_map S (boldClose r')
  end.

Definition boldMatcher : matcher := fun _ s =>
  if startsWith [c_star; c_star] s then
    match boldClose (drop 2 s) with
    | Some n => Some (lit "<strong>" ++ take n (drop 2 s) ++ lit "</strong>", (n + 4)%nat)
    | None => None
    end
  else None.

(** *** Step 8: italics, "/(\*|_)([^*_]+)\1/g"

    Group 2 is greedy and runs up to the next star or underscore, which
    must be the delimiter that opened the span. *)
Definition isEmphasisMark (c : N) : bool := (c =? c_star) || (c =? c_underscore).

Definition italicMatcher : matcher := fun _ s =>
  match s with
  | c :: r =>
      if isEmphasisMark c then
        let n := spanLen (fun x => negb (isEmphasisMark x)) r in
        match n, drop n r with
        | S _, d :: _ =>
            if d =? c then Some (lit "<em>" ++ take n r ++ lit "</em>", (n + 2)%nat)
            else None
        | _, _ => None
        end
      else None
  | [] => None
  end.

(** *** Step 9: links, "/\[([^\]]+)\]\(([^)\s]+)\)/g" *)
Definition linkMatcher : matcher := fun _ s =>
  match s with
  | c :: r =>
      if c =? c_lbracket then
        let n := spanLen (fun x => negb (x =? c_rbracket)) r in
        match n, drop n r with
        | S _, _ :: p :: r2 =>
            if p =? c_lparen then
              let u := spanLen (fun x => negb (x =? c_rparen) && negb (isWhiteSpace x)) r2 in
              match u, drop u r2 with
              | S _, q :: _ =>
                  if q =? c_rparen then
                    Some (lit "<a href=" ++ [c_dquote] ++ take u r2 ++ [c_dquote]
                            ++ lit " target=" ++ [c_dquote] ++ lit "_blank" ++ [c_dquote]
                            ++ lit " rel=" ++ [c_dquote] ++ lit "noopener noreferrer" ++ [c_dquote]
                            ++ lit ">" ++ take n r ++ lit "</a>",
                          (n + u + 4)%nat)
                  else None
              | _, _ => None
              end
            else None
        | _, _ => None
        end
      else None
  | [] => None
  end.

(** *** Step 10: paragraphs

    [text.split(/\n{2,}/)]: a separator is a whole run of two or more line
    feeds. *)
Fixpoint splitParagraphs (skip : nat) (s : jstring) : list jstring :=
  match s with
  | [] => [[]]
  | c :: s' =>
      match skip with
      | S k => splitParagraphs k s'
      | O =>
          let run := spanLen (N.eqb c_lf) s in
          if (2 <=? run)%nat then [] :: splitParagraphs (Nat.pred run) s'
          else match splitParagraphs 0 s' with
               | b :: bs => (c :: b) :: bs
               | [] => [[c]]
               end
      end
  end.

(** Code units compared without regard to ASCII case (flag [i]; without
    the [u] flag no code unit outside ASCII folds onto an ASCII letter). *)
Definition lowerAscii (c : N) : N :=
  if (65 <=? c) && (c <=? 90) then c + 32 else c.

Fixpoint startsWithCI (p s : jstring) : bool :=
  match p, s with
  | [], _ => true
  | _ :: _, [] => false
  | a :: p', b :: s' => (a =? lowerAscii b) && startsWithCI p' s'
  end.

(** "/^<\/?(h\d|ul|ol|li|pre|blockquote)/i.test(trimmed)" *)
Definition isBlockElement (t : jstring) : bool :=
  match t with
  | c :: r =>
      if c =? c_lt then
        let r' := match r with
                  | d :: r1 => if d =? c_slash then r1 else r
                  | [] => r
                  end in
        match r' with
        | h :: d :: _ => (lowerAscii h =? 104) && isDigit d
        | _ => false
        end
        || startsWithCI (lit "ul") r' || startsWithCI (lit "ol") r'
        || startsWithCI (lit "li") r' || startsWithCI (lit "pre") r'
        || startsWithCI (lit "blockquote") r'
      else false
  | [] => false
  end.

Definition renderParagraph (block : jstring) : jstring :=
  let trimmed := trim block in
  match trimmed with
  | [] => []
  | _ :: _ =>
      if isBlockElement trimmed then trimmed
      else lit "<p>" ++ trimmed ++ lit "</p>"
  end.

Definition wrapParagraphs (text : jstring) : jstring :=
  concat (List.map renderParagraph (splitParagraphs 0 text)).

(** *** Step 11: restore the code blocks

    [codeBlocks.forEach((block, idx) => { text = text.replace(placeholder,
    block) })]: a string pattern and a string replacement. *)
Fixpoint restoreCodeBlocks (idx : nat) (blocks : list jstring) (text : jstring) : jstring :=
  match blocks with
  | [] => text
  | block :: rest =>
      restoreCodeBlocks (S idx) rest (replaceFirst (placeholder idx) block text)
  end.

(** Steps 3 to 10, applied to the escaped text. *)
Definition formatText (text : jstring) : jstring :=
  let text := replaceRegex headingMatcher text in
  let text := replaceRegex blockquoteMatcher text in
  let text := replaceRegex orderedListMatcher text in
  let text := replaceRegex unorderedListMatcher text in
  let text := replaceRegex inlineCodeMatcher text in
  let text := replaceRegex boldMatcher text in
  let text := replaceRegex italicMatcher text in
  let text := replaceRegex linkMatcher text in
  wrapParagraphs text.

Definition renderMarkdown (md : jstring) : jstring :=
  let '(text, codeBlocks) := extractCodeBlocks 0 0 md in
  let text := escapeHtml text in
  let text := formatText text in
  restoreCodeBlocks 0 codeBlocks text.

(* ================================================================== *)
(** * Part III. The App component: state, storage and backend *)
(* ================================================================== *)

(** ** Data

    A value that may be [undefined] is an [option]; [truthy] is the
    JavaScript test on such a string ([undefined] and the empty string are
    falsy). *)
Definition truthy (v : option jstring) : bool :=
  match v with
  | Some (_ :: _) => true
  | _ => false
  end.

(** [a || b] on strings. *)
Definition orElse (v : option jstring) (dflt : jstring) : jstring :=
  match v with
  | Some (c :: r) => c :: r
  | _ => dflt
  end.

(** The session object [{ sessionId, username, authToken }]. *)
Record Session := {
  sessionId : option jstring;
  sessionUsername : option jstring;
  authToken : option jstring;
}.

(** [question]: [{ status: "checking" }], [{ status: "loading" }],
    [{ status: "notLeetCode" }], [{ status: "error", message }] and
    [{ status: "ready", number, title }]. *)
Inductive Question :=
  | Checking
  | Loading
  | NotLeetCode
  | QuestionError (message : jstring)
  | Ready (number : N) (title : jstring).

(** [pendingQuestion], when not [null]: [{ number, title }]. *)
Record Pending := {
  pendingNumber : N;
  pendingTitle : jstring;
}.

Record Message := {
  role : jstring;
  content : jstring;
  key : option jstring;
  temp : bool;
}.

(** The hooks of [App]: one field per [useState] and [useRef]
    ([chatRef] only scrolls the view and is left out).  [lastTabUrlRef]
    starts as [null] ([None]) and later holds a [tab.url], which may be
    [undefined] ([Some None]). *)
Record AppState := {
  session : option Session;
  username : jstring;
  question : Question;
  pendingQuestion : option Pending;
  messages : list Message;
  chatInput : jstring;
  busy : bool;
  isSending : bool;
  status : jstring;
  refreshingQuestion : bool;
  questionRef : Question;
  lastTabUrlRef : option (option jstring);
}.

(** [chrome.storage.local] under the two keys of [STORAGE_KEYS].  The
    initialized map sends a session id to the map from question number to
    the time of registration. *)
Record Storage := {
  lcAssistantSession : option Session;
  lcAssistantInitialized : option (gmap jstring (gmap N N));
}.

(** ** The outside world *)

Record Tab := {
  tabId : N;
  tabUrl : option jstring;
}.

(** What the script injected by [extractQuestionFromTab] reads in the
    page: [window.location.href], the text of the element found by
    the [data-cy=question-title] element, or else by the first [h1],
    if there is one, [document.title] and
    [document.documentElement.innerHTML]. *)
Record Page := {
  href : jstring;
  titleElement : option jstring;
  documentTitle : jstring;
  innerHTML : jstring;
}.

(** What the script returns: [{ ok, questionNumber, title, reason }]. *)
Record PageInfo := {
  pageOk : bool;
  questionNumber : option jstring;
  pageTitle : option jstring;
  reason : option jstring;
}.

(** [chrome.scripting.executeScript] rejects, resolves without a result,
    or has run the script in a page. *)
Inductive ScriptOutcome :=
  | ScriptRejected (message : jstring)
  | ScriptNoResult
  | ScriptRanIn (page : Page).

(** A request handed to [fetch].  [lc_question_number] is the number
    given to [JSON.stringify], which writes [Infinity] as [null]. *)
Inductive Request :=
  | PostQuestions (headers : list (jstring * jstring))
      (lc_question_number : N) (lc_question_title : option jstring)
  | GetWhoami (headers : list (jstring * jstring))
  | PostChat (headers : list (jstring * jstring)) (text : jstring)
  | PostDeleteSession (headers : list (jstring * jstring))
  | PostCreateSession (name : jstring).

Record RawMessage := {
  rawRole : jstring;
  rawContent : jstring;
  rawTs : option jstring;
}.

(** The fields this program reads from a JSON response body. *)
Record Data := {
  dataOk : option bool;
  dataError : option jstring;
  dataDetail : option jstring;
  dataSessionId : option jstring;
  dataUsername : option jstring;
  dataAuthToken : option jstring;
  dataMessages : option (list RawMessage);
}.

(** [fetch] rejects, or resolves to a response with its [ok] flag and a
    body that [resp.json()] either parses or rejects. *)
Inductive FetchOutcome :=
  | FetchRejected (message : jstring)
  | Response (ok : bool) (json : jstring + Data).

(** The environment answers as a function of the number of earlier
    interactions, so that it may answer each call differently. *)
Record Env := {
  backend : nat -> Request -> FetchOutcome;
  dateNow : nat -> N;
  tabsQuery : nat -> option Tab;
  executeScript : nat -> N -> ScriptOutcome;
}.

Record World := {
  ui : AppState;
  storage : Storage;
  requests : list Request;
  tick : nat;
}.

(** ** Asynchronous functions

    An [async] function is a state transformer that returns a value or
    throws an [Error] with a message.  A call is one transformer, from
    its first statement to its last: what another handler does while the
    call waits at an [await] is not part of it.  A handler that ran
    before a call resumed is run before the call, and the two things
    that a handler can still hold from before are explicit: the state
    variables that its closure captured ([cur]) and [questionRef].
    Calls of [console.error] and [console.warn] change nothing here and
    are left out. *)
Inductive Result (A : Type) :=
  | Returned (a : A)
  | Thrown (message : jstring).
Arguments Returned {A} a.
Arguments Thrown {A} message.

Definition Async (A : Type) : Type := World -> Result A * World.

Definition ret {A} (a : A) : Async A := fun w => (Returned a, w).

Definition throw {A} (message : jstring) : Async A := fun w => (Thrown message, w).

Definition bind {A B} (m : Async A) (k : A -> Async B) : Async B :=
  fun w =>
    match m w with
    | (Returned a, w') => k a w'
    | (Thrown e, w') => (Thrown e, w')
    end.

Declare Scope async_scope.
Delimit Scope async_scope with async.
Notation "x <- m ;; k" := (bind m (fun x => k))
  (at level 100, m at next level, right associativity) : async_scope.
Notation "m ;; k" := (bind m (fun _ => k))
  (at level 100, right associativity) : async_scope.
Local Open Scope async_scope.

(** [try { body } catch (err) { handler(err.message) }] *)
Definition tryCatch {A} (body : Async A) (handler : jstring -> Async A) : Async A :=
  fun w =>
    match body w with
    | (Returned a, w') => (Returned a, w')
    | (Thrown e, w') => handler e w'
    end.

(** [try { body } finally { cleanup }] *)
Definition tryFinally {A} (body : Async A) (cleanup : Async unit) : Async A :=
  fun w =>
    match body w with
    | (r, w') =>
        match cleanup w' with
        | (Returned _, w'') => (r, w'')
        | (Thrown e, w'') => (Thrown e, w'')
        end
    end.

Definition when (b : bool) (m : Async unit) : Async unit :=
  if b then m else ret tt.

Definition modifyUi (f : AppState -> AppState) : Async unit :=
  fun w => (Returned tt,
            {| ui := f (ui w); storage := storage w; requests := requests w; tick := tick w |}).

Definition getUi : Async AppState := fun w => (Returned (ui w), w).

Definition setSession (v : option Session) : Async unit :=
  modifyUi (fun s =>
    {| session := v; username := username s; question := question s;
       pendingQuestion := pendingQuestion s; messages := messages s;
       chatInput := chatInput s; busy := busy s; isSending := isSending s;
       status := status s; refreshingQuestion := refreshingQuestion s;
       questionRef := questionRef s; lastTabUrlRef := lastTabUrlRef s |}).

Definition setUsername (v : jstring) : Async unit :=
  modifyUi (fun s =>
    {| session := session s; username := v; question := question s;
       pendingQuestion := pendingQuestion s; messages := messages s;
       chatInput := chatInput s; busy := busy s; isSending := isSending s;
       status := status s; refreshingQuestion := refreshingQuestion s;
       questionRef := questionRef s; lastTabUrlRef := lastTabUrlRef s |}).

Definition setQuestion (v : Question) : Async unit :=
  modifyUi (fun s =>
    {| session := session s; username := username s; question := v;
       pendingQuestion := pendingQuestion s; messages := messages s;
       chatInput := chatInput s; busy := busy s; isSending := isSending s;
       status := status s; refreshingQuestion := refreshingQuestion s;
       questionRef := questionRef s; lastTabUrlRef := lastTabUrlRef s |}).

(** [setPendingQuestion(prev => f(prev))]; a plain value is [fun _ => v]. *)
Definition setPendingQuestion (f : option Pending -> option Pending) : Async unit :=
  modifyUi (fun s =>
    {| session := session s; username := username s; question := question s;
       pendingQuestion := f (pendingQuestion s); messages := messages s;
       chatInput := chatInput s; busy := busy s; isSending := isSending s;
       status := status s; refreshingQuestion := refreshingQuestion s;
       questionRef := questionRef s; lastTabUrlRef := lastTabUrlRef s |}).

Definition setMessages (f : list Message -> list Message) : Async unit :=
  modifyUi (fun s =>
    {| session := session s; username := username s; question := question s;
       pendingQuestion := pendingQuestion s; messages := f (messages s);
       chatInput := chatInput s; busy := busy s; isSending := isSending s;
       status := status s; refreshingQuestion := refreshingQuestion s;
       questionRef := questionRef s; lastTabUrlRef := lastTabUrlRef s |}).

Definition setChatInput (v : jstring) : Async unit :=
  modifyUi (fun s =>
    {| session := session s; username := username s; question := question s;
       pendingQuestion := pendingQuestion s; messages := messages s;
       chatInput := v; busy := busy s; isSending := isSending s;
       status := status s; refreshingQuestion := refreshingQuestion s;
       questionRef := questionRef s; lastTabUrlRef := lastTabUrlRef s |}).

Definition setBusy (v : bool) : Async unit :=
  modifyUi (fun s =>
    {| session := session s; username := username s; question := question s;
       pendingQuestion := pendingQuestion s; messages := messages s;
       chatInput := chatInput s; busy := v; isSending := isSending s;
       status := status s; refreshingQuestion := refreshingQuestion s;
       questionRef := questionRef s; lastTabUrlRef := lastTabUrlRef s |}).

Definition setIsSending (v : bool) : Async unit :=
  modifyUi (fun s =>
    {| session := session s; username := username s; question := question s;
       pendingQuestion := pendingQuestion s; messages := messages s;
       chatInput := chatInput s; busy := busy s; isSending := v;
       status := status s; refreshingQuestion := refreshingQuestion s;
       questionRef := questionRef s; lastTabUrlRef := lastTabUrlRef s |}).

Definition setStatus (v : jstring) : Async unit :=
  modifyUi (fun s =>
    {| session := session s; username := username s; question := question s;
       pendingQuestion := pendingQuestion s; messages := messages s;
       chatInput := chatInput s; busy := busy s; isSending := isSending s;
       status := v; refreshingQuestion := refreshingQuestion s;
       questionRef := questionRef s; lastTabUrlRef := lastTabUrlRef s |}).

Definition setRefreshingQuestion (v : bool) : Async unit :=
  modifyUi (fun s =>
    {| session := session s; username := username s; question := question s;
       pendingQuestion := pendingQuestion s; messages := messages s;
       chatInput := chatInput s; busy := busy s; isSending := isSending s;
       status := status s; refreshingQuestion := v;
       questionRef := questionRef s; lastTabUrlRef := lastTabUrlRef s |}).

(** [questionRef.current = v] *)
Definition setQuestionRef (v : Question) : Async unit :=
  modifyUi (fun s =>
    {| session := session s; username := username s; question := question s;
       pendingQuestion := pendingQuestion s; messages := messages s;
       chatInput := chatInput s; busy := busy s; isSending := isSending s;
       status := status s; refreshingQuestion := refreshingQuestion s;
       questionRef := v; lastTabUrlRef := lastTabUrlRef s |}).

(** [lastTabUrlRef.current = v] *)
Definition setLastTabUrlRef (v : option (option jstring)) : Async unit :=
  modifyUi (fun s =>
    {| session := session s; username := username s; question := question s;
       pendingQuestion := pendingQuestion s; messages := messages s;
       chatInput := chatInput s; busy := busy s; isSending := isSending s;
       status := status s; refreshingQuestion := refreshingQuestion s;
       questionRef := questionRef s; lastTabUrlRef := v |}).

Definition modifyStorage (f : Storage -> Storage) : Async unit :=
  fun w => (Returned tt,
            {| ui := ui w; storage := f (storage w); requests := requests w; tick := tick w |}).

(** One interaction with the environment: it advances [tick]. *)
Definition ask {A} (f : nat -> A) : Async A :=
  fun w => (Returned (f (tick w)),
            {| ui := ui w; storage := storage w; requests := requests w; tick := S (tick w) |}).

(** ** Helpers of [popup.js] *)

(** [err?.message || dflt] *)
Definition messageOr (message dflt : jstring) : jstring :=
  orElse (Some message) dflt.

(** A property key made from a value that may be [undefined]. *)
Definition propertyKey (v : option jstring) : jstring :=
  match v with
  | Some s => s
  | None => lit "undefined"
  end.

(** ** [Number(s)] on a string of decimal digits

    The page script hands over the digits that it matched with [(\d+)]
    (see [questionScript]); on such a string [Number] gives the binary64
    value nearest to the decimal value, ties going to the even
    significand.  Up to 2^53 every integer is such a value; above it the
    value is rounded to 53 significant bits.  Binary64 has no finite
    value from 2^1024 on: a decimal value that rounds that far gives
    [Infinity], which the number 2^1024 stands for here (it compares
    equal to itself and to no finite value, as [Infinity] does). *)
Definition infinity : N := 2 ^ 1024.

Definition decimalValue (s : jstring) : N :=
  fold_left (fun acc c => 10 * acc + (c - 48)) s 0.

Definition roundToBinary64 (v : N) : N :=
  let bits := N.size v in
  if bits <=? 53 then v
  else
    let shift := bits - 53 in
    let significand := N.shiftr v shift in
    let remainder := v - N.shiftl significand shift in
    let half := N.shiftl 1 (shift - 1) in
    let roundUp := (half <? remainder) || ((remainder =? half) && N.odd significand) in
    let rounded := N.shiftl (if roundUp then significand + 1 else significand) shift in
    if infinity <=? rounded then infinity else rounded.

Definition Number (s : jstring) : N := roundToBinary64 (decimalValue s).

Definition buildAuthHeaders (session : option Session) : list (jstring * jstring) :=
  match session with
  | Some s =>
      if negb (truthy (sessionId s)) || negb (truthy (authToken s)) then []
      else [(lit "X-Session-ID", propertyKey (sessionId s));
            (lit "X-Session-Auth", propertyKey (authToken s))]
  | None => []
  end.

(** "/https?:\/\/leetcode\.com\/problems\//i.test(url)": the pattern may
    start anywhere in [url]. *)
Fixpoint containsQuestionUrl (url : jstring) : bool :=
  (startsWithCI (lit "http://leetcode.com/problems/") url
   || startsWithCI (lit "https://leetcode.com/problems/") url)
  || match url with
     | [] => false
     | _ :: url' => containsQuestionUrl url'
     end.

Definition isLeetCodeQuestionUrl (url : option jstring) : bool :=
  match url with
  | Some u => containsQuestionUrl u
  | None => false
  end.

Definition getActiveTab (env : Env) : Async (option Tab) := ask (tabsQuery env).

(** [p] occurs somewhere in [s], ASCII case ignored. *)
Fixpoint containsCI (p s : jstring) : bool :=
  startsWithCI p s
  || match s with
     | [] => false
     | _ :: s' => containsCI p s'
     end.

(** The key [questionFrontendId] between double quotes, a colon and the
    double quote that opens the value. *)
Definition frontendIdKey : jstring :=
  [c_dquote] ++ lit "questionFrontendId" ++ [c_dquote] ++ lit ":" ++ [c_dquote].

(** [html.match] with the pattern made of the key above, [(\d+)] and a
    closing double quote: group 1 at the first place where the key is
    followed by digits and a double quote. *)
Fixpoint findFrontendId (html : jstring) : option jstring :=
  match html with
  | [] => None
  | _ :: html' =>
      if startsWith frontendIdKey html then
        let rest := drop (length frontendIdKey) html in
        let d := spanLen isDigit rest in
        match d, drop d rest with
        | S _, q :: _ => if q =? c_dquote then Some (take d rest) else findFrontendId html'
        | _, _ => findFrontendId html'
        end
      else findFrontendId html'
  end.

(** The function that [extractQuestionFromTab] injects into the page. *)
Definition questionScript (page : Page) : PageInfo :=
  if negb (containsCI (lit "leetcode.com/problems/") (href page)) then
    {| pageOk := false; questionNumber := None; pageTitle := None;
       reason := Some (lit "Open a LeetCode question to use the assistant.") |}
  else
    let titleText :=
      match titleElement page with
      | Some text => trim text
      | None => documentTitle page
      end in
    let questionNumber :=
      match spanLen isDigit titleText with
      | S d => Some (take (S d) titleText)
      | O => findFrontendId (innerHTML page)
      end in
    {| pageOk := match questionNumber with Some _ => true | None => false end;
       questionNumber := questionNumber;
       pageTitle := match titleText with [] => None | _ :: _ => Some titleText end;
       reason :=
         match questionNumber with
         | Some _ => None
         | None =>
             Some (lit "Couldn't locate the question number. Expand the description and try again.")
         end |}.

(** [result?.result || { ok: false, reason: "Unable to read the page" }] *)
Definition extractQuestionFromTab (env : Env) (id : N) : Async PageInfo :=
  outcome <- ask (fun t => executeScript env t id) ;;
  match outcome with
  | ScriptRejected e => throw e
  | ScriptRanIn page => ret (questionScript page)
  | ScriptNoResult =>
      ret {| pageOk := false; questionNumber := None; pageTitle := None;
             reason := Some (lit "Unable to read the page") |}
  end.

Definition readSession : Async (option Session) :=
  fun w => (Returned (lcAssistantSession (storage w)), w).

Definition readInitialized : Async (option (gmap jstring (gmap N N))) :=
  fun w => (Returned (lcAssistantInitialized (storage w)), w).

Definition writeSession (v : Session) : Async unit :=
  modifyStorage (fun st =>
    {| lcAssistantSession := Some v; lcAssistantInitialized := lcAssistantInitialized st |}).

Definition writeInitialized (v : gmap jstring (gmap N N)) : Async unit :=
  modifyStorage (fun st =>
    {| lcAssistantSession := lcAssistantSession st; lcAssistantInitialized := Some v |}).

(** [removeStorage([STORAGE_KEYS.session])] *)
Definition removeSession : Async unit :=
  modifyStorage (fun st =>
    {| lcAssistantSession := None; lcAssistantInitialized := lcAssistantInitialized st |}).

(** [fetch(...)]: the request goes out, then the promise settles. *)
Definition fetch (env : Env) (r : Request) : Async (bool * (jstring + Data)) :=
  fun w =>
    let w' := {| ui := ui w; storage := storage w;
                 requests := requests w ++ [r]; tick := S (tick w) |} in
    match backend env (tick w) r with
    | FetchRejected e => (Thrown e, w')
    | Response ok body => (Returned (ok, body), w')
    end.

(** [resp.json()] *)
Definition json (body : jstring + Data) : Async Data :=
  match body with
  | inl e => throw e
  | inr d => ret d
  end.

Definition contentTypeJson : jstring * jstring :=
  (lit "Content-Type", lit "application/json").

Definition isFalse (v : option bool) : bool :=
  match v with
  | Some false => true
  | _ => false
  end.

(** Truthiness of a stored time stamp that may be missing. *)
Definition truthyNumber (v : option N) : bool :=
  match v with
  | Some n => negb (n =? 0)
  | None => false
  end.

(** ** Functions of the [App] component *)

(** The request of [ensureQuestionInitialized]: [POST /questions] with
    the headers [{ "Content-Type": "application/json",
    ...buildAuthHeaders({ sessionId, authToken }) }] and the body
    [{ lc_question_number, lc_question_title: questionTitle || null }]. *)
Definition questionsRequest (sessionId authToken : option jstring)
    (questionNumber : N) (questionTitle : jstring) : Request :=
  PostQuestions
    (contentTypeJson ::
       buildAuthHeaders
         (Some {| sessionId := sessionId; sessionUsername := None;
                  authToken := authToken |}))
    questionNumber
    (match questionTitle with [] => None | _ :: _ => Some questionTitle end).

Definition ensureQuestionInitialized (env : Env) (sessionId authToken : option jstring)
    (questionNumber : N) (questionTitle : jstring) : Async unit :=
  stored <- readInitialized ;;
  let initMap := default ∅ stored in
  let sessionMap := default ∅ (initMap !! propertyKey sessionId) in
  if truthyNumber (sessionMap !! questionNumber) then ret tt
  else if negb (truthy authToken) then throw (lit "Session auth token missing.")
  else
    resp <- fetch env (questionsRequest sessionId authToken questionNumber questionTitle) ;;
    data <- json (snd resp) ;;
    if negb (fst resp) || isFalse (dataOk data) then
      throw (orElse (dataError data)
               (orElse (dataDetail data) (lit "Backend rejected the question.")))
    else
      now <- ask (dateNow env) ;;
      writeInitialized
        (<[propertyKey sessionId := <[questionNumber := now]> sessionMap]> initMap).

Definition hydratedMessage (idx : nat) (m : RawMessage) : Message :=
  {| role := rawRole m;
     content := rawContent m;
     key := Some (orElse (rawTs m) (rawRole m ++ lit "-" ++ decimal idx));
     temp := false |}.

Definition hydrateMessages (env : Env) (sessionId authToken : option jstring) : Async unit :=
  if negb (truthy authToken) then throw (lit "Session auth token missing.")
  else
    resp <- fetch env
      (GetWhoami
         (buildAuthHeaders
            (Some {| sessionId := sessionId; sessionUsername := None;
                     authToken := authToken |}))) ;;
    if negb (fst resp) then throw (lit "Could not load session messages.")
    else
      data <- json (snd resp) ;;
      match dataMessages data with
      | Some ms => setMessages (fun _ => imap hydratedMessage ms)
      | None => ret tt
      end.

Definition initializeForQuestion (env : Env) (sess : Session)
    (questionNumber : N) (questionTitle : jstring) : Async unit :=
  setStatus (lit "Syncing question with backend...") ;;
  tryCatch
    (if negb (truthy (authToken sess)) then
       throw (lit "Missing session auth token. Reset the session.")
     else
       ensureQuestionInitialized env (sessionId sess) (authToken sess)
         questionNumber questionTitle ;;
       hydrateMessages env (sessionId sess) (authToken sess) ;;
       setStatus [])
    (fun err => setStatus (messageOr err (lit "Failed to initialize question."))).

(** The title of a detected question:
    [pageInfo.title || `LeetCode Question #${pageInfo.questionNumber}`]. *)
Definition normalizedTitle (pageInfo : PageInfo) : jstring :=
  orElse (pageTitle pageInfo)
    (lit "LeetCode Question #" ++ propertyKey (questionNumber pageInfo)).

(** Returns the [ready] question as [(number, title)], or [null]. *)
Definition bootstrap (env : Env) : Async (option (N * jstring)) :=
  storedSession <- readSession ;;
  match storedSession with
  | Some s =>
      if truthy (sessionId s) && truthy (authToken s) then
        setSession (Some s) ;;
        setUsername (orElse (sessionUsername s) [])
      else removeSession
  | None => ret tt
  end ;;
  activeTab <- getActiveTab env ;;
  match activeTab with
  | None =>
      setQuestion (QuestionError (lit "No active tab found.")) ;;
      ret None
  | Some tab =>
      if negb (isLeetCodeQuestionUrl (tabUrl tab)) then
        setQuestion NotLeetCode ;;
        ret None
      else
        setQuestion Loading ;;
        pageInfo <- extractQuestionFromTab env (tabId tab) ;;
        if negb (pageOk pageInfo) || negb (truthy (questionNumber pageInfo)) then
          setQuestion
            (QuestionError (orElse (reason pageInfo) (lit "Couldn't read question details."))) ;;
          ret None
        else
          let number := Number (propertyKey (questionNumber pageInfo)) in
          let title := normalizedTitle pageInfo in
          setQuestion (Ready number title) ;;
          setLastTabUrlRef (Some (tabUrl tab)) ;;
          match storedSession with
          | Some s => initializeForQuestion env s number title
          | None => ret tt
          end ;;
          ret (Some (number, title))
  end.

(** [encodeURIComponent(name)] throws a [URIError] when [name] is not
    well-formed UTF-16, that is when a surrogate code unit stands
    without its partner.  The encoded text is determined by [name], which
    is what the request records. *)
Definition isHighSurrogate (c : N) : bool := (0xD800 <=? c) && (c <=? 0xDBFF).
Definition isLowSurrogate (c : N) : bool := (0xDC00 <=? c) && (c <=? 0xDFFF).

Fixpoint isWellFormed (s : jstring) : bool :=
  match s with
  | [] => true
  | c :: s' =>
      if isHighSurrogate c then
        match s' with
        | d :: s'' => isLowSurrogate d && isWellFormed s''
        | [] => false
        end
      else negb (isLowSurrogate c) && isWellFormed s'
  end.

Definition encodeURIComponent (name : jstring) : Async unit :=
  if isWellFormed name then ret tt else throw (lit "URI malformed").

(** [cur] stands for the state variables that the closure captured at
    the render in which the handler was created. *)
Definition createSessionWithName (env : Env) (cur : AppState) (name : jstring)
    (questionOverride : option Question) : Async unit :=
  let targetQuestion := default (question cur) questionOverride in
  setBusy true ;;
  setStatus (lit "Creating session...") ;;
  tryFinally
    (tryCatch
       (encodeURIComponent name ;;
        resp <- fetch env (PostCreateSession name) ;;
        data <- json (snd resp) ;;
        if negb (fst resp) || isFalse (dataOk data) then
          throw (orElse (dataError data)
                   (orElse (dataDetail data) (lit "Unable to create session.")))
        else if negb (truthy (dataAuthToken data)) then
          throw (lit "Server did not return an auth token.")
        else
          let newSession :=
            {| sessionId := dataSessionId data;
               sessionUsername := Some (orElse (dataUsername data) name);
               authToken := dataAuthToken data |} in
          setSession (Some newSession) ;;
          writeSession newSession ;;
          setMessages (fun _ => []) ;;
          match targetQuestion with
          | Ready number title => initializeForQuestion env newSession number title
          | _ => ret tt
          end ;;
          setStatus (lit "Session ready."))
       (fun err => setStatus (messageOr err (lit "Session creation failed."))))
    (setBusy false).

Definition handleCreateSession (env : Env) (cur : AppState) : Async unit :=
  let name := trim (username cur) in
  match name with
  | [] => ret tt
  | _ :: _ => createSessionWithName env cur name None
  end.

Definition isReady (q : Question) : bool :=
  match q with
  | Ready _ _ => true
  | _ => false
  end.

Definition handleSendMessage (env : Env) (cur : AppState) : Async unit :=
  match session cur with
  | None => ret tt
  | Some sess =>
      if negb (isReady (question cur)) || isSending cur then ret tt
      else if negb (truthy (authToken sess)) then
        setStatus (lit "Session auth token missing. Reset the session.")
      else
        let text := trim (chatInput cur) in
        match text with
        | [] => ret tt
        | _ :: _ =>
            let tempMessage :=
              {| role := lit "assistant"; content := lit "Thinking..."; key := None; temp := true |} in
            let userMessage :=
              {| role := lit "user"; content := text; key := None; temp := false |} in
            setChatInput [] ;;
            setIsSending true ;;
            setMessages (fun prev => prev ++ [userMessage; tempMessage]) ;;
            setStatus (lit "Sending message...") ;;
            tryFinally
              (tryCatch
                 (resp <- fetch env
                    (PostChat (contentTypeJson :: buildAuthHeaders (Some sess)) text) ;;
                  data <- json (snd resp) ;;
                  if negb (fst resp) then
                    throw (orElse (dataDetail data)
                             (orElse (dataError data) (lit "Chat request failed.")))
                  else
                    hydrateMessages env (sessionId sess) (authToken sess) ;;
                    setStatus [])
                 (fun err =>
                    setMessages (fun prev =>
                      List.filter (fun m => negb (temp m)) prev
                        ++ [{| role := lit "assistant";
                               content := lit "Error: "
                                 ++ messageOr err (lit "Something went wrong");
                               key := None; temp := false |}]) ;;
                    setStatus (messageOr err (lit "Could not send message."))))
              (setIsSending false)
        end
  end.

(** The request to delete the session, shared by [resetSession] and
    [handleReloadForNewQuestion]:
    [if (!resp.ok) { const data = await resp.json().catch(() => ({}));
    throw new Error(data?.detail || data?.error || "Failed to delete
    session.") }]. *)
Definition deleteSessionRequest (env : Env) (currentSession : Session) : Async unit :=
  resp <- fetch env (PostDeleteSession (buildAuthHeaders (Some currentSession))) ;;
  if negb (fst resp) then
    match snd resp with
    | inr data =>
        throw (orElse (dataDetail data)
                 (orElse (dataError data) (lit "Failed to delete session.")))
    | inl _ => throw (lit "Failed to delete session.")
    end
  else ret tt.

(** The property names that every object inherits from
    [Object.prototype].  Reading one of them from an object that has no
    entry of its own under that name gives a function (or, for
    [__proto__], the prototype): a truthy value. *)
Definition inheritedKeys : list jstring :=
  [lit "constructor"; lit "__defineGetter__"; lit "__defineSetter__";
   lit "hasOwnProperty"; lit "__lookupGetter__"; lit "__lookupSetter__";
   lit "isPrototypeOf"; lit "propertyIsEnumerable"; lit "toString";
   lit "valueOf"; lit "__proto__"; lit "toLocaleString"].

(** [Boolean(initMap[key])]: an entry of the map is an object, hence
    truthy, and so is what a missing entry inherits. *)
Definition truthyEntry (initMap : gmap jstring (gmap N N)) (key : jstring) : bool :=
  match initMap !! key with
  | Some _ => true
  | None => bool_decide (key ∈ inheritedKeys)
  end.

(** The local clean-up of both [finally] blocks, up to [setMessages([])].
    The rest of the destructuring [{ [sessionId]: _removed, ...rest }]
    holds the entries of [initMap] other than the one under [sessionId]. *)
Definition clearLocalSession (currentSession : option Session) : Async unit :=
  removeSession ;;
  stored <- readInitialized ;;
  let initMap := default ∅ stored in
  match currentSession with
  | Some s =>
      if truthy (sessionId s) && truthyEntry initMap (propertyKey (sessionId s))
      then writeInitialized (delete (propertyKey (sessionId s)) initMap)
      else ret tt
  | None => ret tt
  end ;;
  setSession None ;;
  setMessages (fun _ => []).

Definition resetSession (env : Env) (cur : AppState) : Async unit :=
  let currentSession := session cur in
  setBusy true ;;
  setStatus (lit "Resetting session...") ;;
  errorMessage <-
    tryCatch
      (match currentSession with
       | Some s => deleteSessionRequest env s
       | None => ret tt
       end ;;
       ret [])
      (fun err => ret (messageOr err (lit "Failed to reset session."))) ;;
  clearLocalSession currentSession ;;
  setBusy false ;;
  setStatus errorMessage.

Definition detectQuestionForTab (env : Env) (tab : option Tab) : Async unit :=
  tryCatch
    (match tab with
     | None => setPendingQuestion (fun _ => None)
     | Some tab =>
         if negb (isLeetCodeQuestionUrl (tabUrl tab)) then setPendingQuestion (fun _ => None)
         else
           pageInfo <- extractQuestionFromTab env (tabId tab) ;;
           if negb (pageOk pageInfo) || negb (truthy (questionNumber pageInfo)) then
             setPendingQuestion (fun _ => None)
           else
             let normalized :=
               {| pendingNumber := Number (propertyKey (questionNumber pageInfo));
                  pendingTitle := normalizedTitle pageInfo |} in
             s <- getUi ;;
             let differs :=
               match questionRef s with
               | Ready number _ => negb (number =? pendingNumber normalized)
               | _ => true
               end in
             if differs then
               setPendingQuestion (fun prev =>
                 match prev with
                 | Some p =>
                     if pendingNumber p =? pendingNumber normalized then prev
                     else Some normalized
                 | None => Some normalized
                 end)
             else setPendingQuestion (fun _ => None)
     end)
    (fun _ => ret tt).

(** The polling timer and [chrome.tabs.onActivated]. *)
Definition checkActiveTab (env : Env) : Async unit :=
  tryCatch
    (tab <- getActiveTab env ;;
     match tab with
     | None => ret tt
     | Some t =>
         s <- getUi ;;
         if decide (Some (tabUrl t) = lastTabUrlRef s) then ret tt
         else
           setLastTabUrlRef (Some (tabUrl t)) ;;
           detectQuestionForTab env (Some t)
     end)
    (fun _ => ret tt).

(** [chrome.tabs.onUpdated] *)
Definition handleUpdated (env : Env) (changeUrl changeStatus : option jstring)
    (tab : option Tab) : Async unit :=
  if truthy changeUrl || bool_decide (changeStatus = Some (lit "complete")) then
    s <- getUi ;;
    setLastTabUrlRef
      (match tab with
       | Some t => if truthy (tabUrl t) then Some (tabUrl t) else lastTabUrlRef s
       | None => lastTabUrlRef s
       end) ;;
    detectQuestionForTab env tab
  else ret tt.

Definition handleReloadForNewQuestion (env : Env) (cur : AppState) : Async unit :=
  setRefreshingQuestion true ;;
  setPendingQuestion (fun _ => None) ;;
  setQuestion Loading ;;
  let currentSession := session cur in
  let currentUsername := trim (username cur) in
  tryFinally
    (match currentSession with
     | Some s =>
         tryCatch (deleteSessionRequest env s) (fun _ => ret tt) ;;
         clearLocalSession currentSession
     | None => ret tt
     end ;;
     latestQuestion <- bootstrap env ;;
     match currentUsername with
     | [] => ret tt
     | _ :: _ =>
         createSessionWithName env cur currentUsername
           (Some match latestQuestion with
                 | Some (number, title) => Ready number title
                 | None => question cur
                 end)
     end)
    (setRefreshingQuestion false).

(** ** The first render and the effect on [question] *)

Definition initialState : AppState :=
  {| session := None; username := []; question := Checking;
     pendingQuestion := None; messages := []; chatInput := [];
     busy := false; isSending := false; status := [];
     refreshingQuestion := false; questionRef := Checking;
     lastTabUrlRef := None |}.

(** [useEffect(() => { questionRef.current = question }, [question])],
    run after the component has rendered; until then [questionRef] holds
    the question of the render before. *)
Definition syncQuestionRef (w : World) : World :=
  snd (setQuestionRef (question (ui w)) w).

(* ================================================================== *)
(** * Part IV. Properties of the component: vocabulary *)
(* ================================================================== *)

(** [keeps R m]: whatever [m] returns or throws, the world it leaves is
    related by [R] to the world it started in. *)
Definition keeps {A} (R : World -> World -> Prop) (m : Async A) : Prop :=
  forall w, R w (snd (m w)).

(** The pending question, when there is one beside a [ready] question,
    has another number. *)
Definition pendingConsistent (s : AppState) : Prop :=
  forall p n t,
    pendingQuestion s = Some p -> question s = Ready n t -> pendingNumber p <> n.

(** Nothing but [pendingQuestion] differs (the count of interactions with
    the environment is not part of the component). *)
Definition samePendingApart (w w' : World) : Prop :=
  session (ui w') = session (ui w)
  /\ username (ui w') = username (ui w)
  /\ question (ui w') = question (ui w)
  /\ messages (ui w') = messages (ui w)
  /\ chatInput (ui w') = chatInput (ui w)
  /\ busy (ui w') = busy (ui w)
  /\ isSending (ui w') = isSending (ui w)
  /\ status (ui w') = status (ui w)
  /\ refreshingQuestion (ui w') = refreshingQuestion (ui w)
  /\ questionRef (ui w') = questionRef (ui w)
  /\ lastTabUrlRef (ui w') = lastTabUrlRef (ui w)
  /\ storage w' = storage w
  /\ requests w' = requests w.

Definition sameQuestionAndPending (w w' : World) : Prop :=
  question (ui w') = question (ui w)
  /\ pendingQuestion (ui w') = pendingQuestion (ui w).

Definition samePending (w w' : World) : Prop :=
  pendingQuestion (ui w') = pendingQuestion (ui w).

Definition sameRequests (w w' : World) : Prop :=
  requests w' = requests w.

(** Requests are only added. *)
Definition requestsGrow (w w' : World) : Prop :=
  exists rs, requests w' = requests w ++ rs.

(** Requests are only added, and [r] is the first of them. *)
Definition sendsFirst (r : Request) (w w' : World) : Prop :=
  exists rs, requests w' = requests w ++ r :: rs.

Definition isPostQuestions (r : Request) : bool :=
  match r with
  | PostQuestions _ _ _ => true
  | _ => false
  end.

(** Number of calls of the registration end point among [rs]. *)
Definition registrationCalls (rs : list Request) : nat :=
  length (List.filter isPostQuestions rs).

(** The time stamp recorded for a session and a question, if any. *)
Definition recorded (st : Storage) (sessionId : option jstring) (questionNumber : N) : option N :=
  default ∅ (default ∅ (lcAssistantInitialized st) !! propertyKey sessionId) !! questionNumber.

(** The question that a successful extraction reports. *)
Definition detectedQuestion (pageInfo : PageInfo) : Pending :=
  {| pendingNumber := Number (propertyKey (questionNumber pageInfo));
     pendingTitle := normalizedTitle pageInfo |}.

(** ** Vocabulary for the renderer *)

(** No code unit of [s] satisfies [p]. *)
Definition noneOf (p : N -> bool) (s : jstring) : Prop :=
  Forall (fun c => p c = false) s.

(** The code units that escapeHtml replaces apart from the ampersand:
    those that can open or close a tag or an attribute value. *)
Definition isMarkup (c : N) : bool :=
  (c =? c_lt) || (c =? c_gt) || (c =? c_dquote) || (c =? c_squote).

(** The code units some step of the renderer reacts to inside a line. *)
Definition isSpecial (c : N) : bool :=
  isLineTerminator c || (c =? c_amp) || isMarkup c || (c =? c_backtick)
  || (c =? c_star) || (c =? c_underscore) || (c =? c_lbracket).

(** The code units that end an inline code span or that a later step
    reacts to inside it. *)
Definition breaksInlineCode (c : N) : bool :=
  isLineTerminator c || (c =? c_backtick) || (c =? c_star)
  || (c =? c_underscore) || (c =? c_lbracket).

(** Lines joined by single line feeds. *)
Fixpoint joinLines (lines : list jstring) : jstring :=
  match lines with
  | [] => []
  | [l] => l
  | l :: rest => l ++ c_lf :: joinLines rest
  end.

(** A line of a numbered list: the number, a dot, a space, the text. *)
Definition listLine (item : jstring * jstring) : jstring :=
  fst item ++ lit ". " ++ snd item.

Definition listItemHtml (item : jstring * jstring) : jstring :=
  lit "<li>" ++ snd item ++ lit "</li>".

(** One or more decimal digits. *)
Definition isNumeral (d : jstring) : Prop :=
  d <> [] /\ noneOf (fun c => negb (isDigit c)) d.

(** The first code unit is there and is not white space. *)
Definition startsSolid (s : jstring) : Prop :=
  match s with
  | c :: _ => isWhiteSpace c = false
  | [] => False
  end.

(** The text of a list item: on one line, without the code units the
    renderer reacts to, and with no white space at either end. *)
Definition isItemText (t : jstring) : Prop :=
  noneOf isSpecial t /\ startsSolid t /\ startsSolid (rev t).

(** ** Sample worlds *)

Definition emptyData : Data :=
  {| dataOk := None; dataError := None; dataDetail := None; dataSessionId := None;
     dataUsername := None; dataAuthToken := None; dataMessages := None |}.

(** An environment that gives the same answers every time. *)
Definition constantEnv (answer : FetchOutcome) (now : N) (tab : option Tab)
    (page : ScriptOutcome) : Env :=
  {| backend := fun _ _ => answer;
     dateNow := fun _ => now;
     tabsQuery := fun _ => tab;
     executeScript := fun _ _ => page |}.

Definition emptyStorage : Storage :=
  {| lcAssistantSession := None; lcAssistantInitialized := None |}.

Definition worldOf (s : AppState) (st : Storage) : World :=
  {| ui := s; storage := st; requests := []; tick := 0 |}.

Definition sampleSession : Session :=
  {| sessionId := Some (lit "s-1"); sessionUsername := Some (lit "ada");
     authToken := Some (lit "tok-1") |}.

Definition sampleTab (slug : string) : Tab :=
  {| tabId := 7; tabUrl := Some (lit "https://leetcode.com/problems/" ++ lit slug) |}.

(** A question page whose title element reads [title]. *)
Definition samplePage (title : string) : Page :=
  {| href := lit "https://leetcode.com/problems/sample/description/";
     titleElement := Some (lit title);
     documentTitle := lit "LeetCode";
     innerHTML := [] |}.

(** A state in which question [number] is [ready]. *)
Definition readyState (number : N) (title : string) (sess : option Session)
    (pending : option Pending) : AppState :=
  {| session := sess; username := []; question := Ready number (lit title);
     pendingQuestion := pending; messages := []; chatInput := [];
     busy := false; isSending := false; status := [];
     refreshingQuestion := false; questionRef := Ready number (lit title);
     lastTabUrlRef := None |}.

(** Storage in which [sessionId] has registered [questionNumber]. *)
Definition storageWith (sess : option Session) (sessionId : jstring)
    (questionNumber time : N) : Storage :=
  {| lcAssistantSession := sess;
     lcAssistantInitialized := Some {[ sessionId := {[ questionNumber := time ]} ]} |}.

(** A backend that cannot be reached, one that refuses, one that accepts. *)
Definition offline : FetchOutcome := FetchRejected (lit "Failed to fetch").
Definition refusing : FetchOutcome := Response false (inr emptyData).
Definition accepting : FetchOutcome := Response true (inr emptyData).

Definition noPage : ScriptOutcome := ScriptNoResult.

(** An answer to the creation of a session that carries an auth token
    and no session id, and the session that [createSessionWithName]
    makes of it for the name [ada]. *)
Definition tokenOnlyAnswer : FetchOutcome :=
  Response true
    (inr {| dataOk := None; dataError := None; dataDetail := None;
            dataSessionId := None; dataUsername := None;
            dataAuthToken := Some (lit "tok-1"); dataMessages := None |}).

Definition tokenOnlySession : Session :=
  {| sessionId := None; sessionUsername := Some (lit "ada");
     authToken := Some (lit "tok-1") |}.

(** Question 17 is [ready], [sess] is the session and [text] stands in
    the chat box. *)
Definition chatState (sess : Session) (text : string) : AppState :=
  {| session := Some sess; username := [];
     question := Ready 17 (lit "17. Letter Combinations");
     pendingQuestion := None; messages := []; chatInput := lit text;
     busy := false; isSending := false; status := [];
     refreshingQuestion := false;
     questionRef := Ready 17 (lit "17. Letter Combinations");
     lastTabUrlRef := None |}.

(** The popup is opened on the page of question 42: the active tab and
    what the page script finds there. *)
Definition question42Tab : Tab := sampleTab "trapping-rain-water/".

Definition question42Env : Env :=
  constantEnv offline 0 (Some question42Tab)
    (ScriptRanIn (samplePage "42. Trapping Rain Water")).

Definition question42 : Pending :=
  {| pendingNumber := 42; pendingTitle := lit "42. Trapping Rain Water" |}.

(* ================================================================== *)
(** * Part V. Proofs about the component *)
(* ================================================================== *)

Section FrameRules.
Variable R : World -> World -> Prop.
Hypothesis R_refl : forall w, R w w.
Hypothesis R_trans : forall a b c, R a b -> R b c -> R a c.

Lemma keeps_ret {A} (a : A) : keeps R (ret a).
Proof. intros w. apply R_refl. Qed.

Lemma keeps_throw {A} e : keeps R (@throw A e).
Proof. intros w. apply R_refl. Qed.

Lemma keeps_bind {A B} (m : Async A) (k : A -> Async B) :
  keeps R m -> (forall a, keeps R (k a)) -> keeps R (bind m k).
Proof.
  intros Hm Hk w. unfold bind. specialize (Hm w).
  destruct (m w) as [[a|e] w1]; simpl in *; [|exact Hm].
  eapply R_trans; [exact Hm|apply Hk].
Qed.

Lemma keeps_tryCatch {A} (m : Async A) (h : jstring -> Async A) :
  keeps R m -> (forall e, keeps R (h e)) -> keeps R (tryCatch m h).
Proof.
  intros Hm Hh w. unfold tryCatch. specialize (Hm w).
  destruct (m w) as [[a|e] w1]; simpl in *; [exact Hm|].
  eapply R_trans; [exact Hm|apply Hh].
Qed.

Lemma keeps_tryFinally {A} (m : Async A) (c : Async unit) :
  keeps R m -> keeps R c -> keeps R (tryFinally m c).
Proof.
  intros Hm Hc w. unfold tryFinally. specialize (Hm w).
  destruct (m w) as [r w1]. specialize (Hc w1).
  destruct (c w1) as [[u|e] w2]; simpl in *; eapply R_trans; eauto.
Qed.

Lemma keeps_getUi : keeps R getUi.
Proof. intros w. apply R_refl. Qed.

Lemma keeps_readSession : keeps R readSession.
Proof. intros w. apply R_refl. Qed.

Lemma keeps_readInitialized : keeps R readInitialized.
Proof. intros w. apply R_refl. Qed.

Lemma keeps_json body : keeps R (json body).
Proof. destruct body; intros w; apply R_refl. Qed.
End FrameRules.

(** Splits a goal [keeps R m] along the structure of [m]; what is left
    are the primitive effects. *)
Ltac keeps_step Hrefl Htrans :=
  first
    [ apply (keeps_ret _ Hrefl)
    | apply (keeps_throw _ Hrefl)
    | apply (keeps_getUi _ Hrefl)
    | apply (keeps_readSession _ Hrefl)
    | apply (keeps_readInitialized _ Hrefl)
    | apply (keeps_json _ Hrefl)
    | apply (keeps_bind _ Htrans); [|intros ?]
    | apply (keeps_tryCatch _ Htrans); [|intros ?]
    | apply (keeps_tryFinally _ Htrans)
    | match goal with
      | |- keeps _ (match ?x with _ => _ end) => destruct x
      | |- keeps _ (let _ := _ in _) => cbv zeta
      end ].

Ltac keeps_split Hrefl Htrans := repeat keeps_step Hrefl Htrans.

Ltac keeps_prim := intros ?w; repeat split; reflexivity.

(** ** What background detection leaves alone *)

Lemma samePendingApart_refl w : samePendingApart w w.
Proof. repeat split. Qed.

Lemma samePendingApart_trans a b c :
  samePendingApart a b -> samePendingApart b c -> samePendingApart a c.
Proof.
  unfold samePendingApart. intros H1 H2.
  repeat match goal with H : _ /\ _ |- _ => destruct H end.
  repeat split; congruence.
Qed.

Lemma keeps_frame_setPendingQuestion f : keeps samePendingApart (setPendingQuestion f).
Proof. keeps_prim. Qed.

Lemma keeps_frame_ask {A} (f : nat -> A) : keeps samePendingApart (ask f).
Proof. keeps_prim. Qed.

Lemma keeps_frame_extract env id : keeps samePendingApart (extractQuestionFromTab env id).
Proof.
  unfold extractQuestionFromTab.
  apply (keeps_bind _ samePendingApart_trans); [apply keeps_frame_ask|].
  intros [e| |page]; intros w; apply samePendingApart_refl.
Qed.

Lemma detectQuestionForTab_returns env tab w :
  fst (detectQuestionForTab env tab w) = Returned tt.
Proof.
  unfold detectQuestionForTab, tryCatch.
  destruct (_ w) as [[[]|e] w1] eqn:E; reflexivity.
Qed.

Lemma detectQuestionForTab_frame env tab :
  keeps samePendingApart (detectQuestionForTab env tab).
Proof.
  unfold detectQuestionForTab.
  keeps_split samePendingApart_refl samePendingApart_trans;
    solve [apply keeps_frame_setPendingQuestion | apply keeps_frame_extract].
Qed.

(** C10.  A background detection changes nothing but [pendingQuestion]:
    for every tab it is called with and every answer of the page script
    (no tab, a URL that is not a question page, a failed or rejected
    extraction, the number of the current question, another number), the
    call returns normally and the question, the session, the transcript,
    every other state variable, both storage entries and the list of
    requests sent are what they were. *)
Theorem detectQuestionForTab_changes_only_pending (env : Env) (tab : option Tab) (w : World) :
  fst (detectQuestionForTab env tab w) = Returned tt
  /\ samePendingApart w (snd (detectQuestionForTab env tab w)).
Proof.
  split; [apply detectQuestionForTab_returns|apply detectQuestionForTab_frame].
Qed.

(** ** The page script *)

Lemma take_spanLen p s : noneOf (fun c => negb (p c)) (take (spanLen p s) s).
Proof.
  induction s as [|c s IH]; [constructor|].
  cbn [spanLen]. destruct (p c) eqn:E; [|constructor].
  cbn. constructor; [rewrite E; reflexivity|exact IH].
Qed.

Lemma findFrontendId_digits html ds :
  findFrontendId html = Some ds -> ds <> [] /\ noneOf (fun c => negb (isDigit c)) ds.
Proof.
  induction html as [|c html IH]; [discriminate|].
  cbn [findFrontendId].
  destruct (startsWith frontendIdKey (c :: html)); [|exact IH].
  set (rest := drop (length frontendIdKey) (c :: html)).
  destruct (spanLen isDigit rest) as [|d] eqn:Ed; [exact IH|].
  destruct (drop (S d) rest) as [|q r]; [exact IH|].
  destruct (q =? c_dquote); [|exact IH].
  intros [= <-]. split.
  - destruct rest; [discriminate|discriminate].
  - rewrite <- Ed. apply take_spanLen.
Qed.

(** When the script reports success, the question number is a non-empty
    string of decimal digits. *)
Lemma questionScript_number page :
  pageOk (questionScript page) = true ->
  exists ds, questionNumber (questionScript page) = Some ds
             /\ ds <> [] /\ noneOf (fun c => negb (isDigit c)) ds.
Proof.
  unfold questionScript.
  destruct (negb (containsCI _ (href page))); [discriminate|].
  cbv zeta. cbn [pageOk questionNumber].
  set (titleText := match titleElement page with Some text => trim text | None => _ end).
  destruct (spanLen isDigit titleText) as [|d] eqn:Ed.
  - destruct (findFrontendId (innerHTML page)) as [ds|] eqn:E; [|discriminate].
    intros _. exists ds. split; [reflexivity|]. eapply findFrontendId_digits, E.
  - intros _. eexists. split; [reflexivity|]. split.
    + destruct titleText; [discriminate|discriminate].
    + rewrite <- Ed. apply take_spanLen.
Qed.

Lemma questionScript_truthy page :
  pageOk (questionScript page) = true -> truthy (questionNumber (questionScript page)) = true.
Proof.
  intros H. destruct (questionScript_number page H) as (ds & -> & Hne & _).
  destruct ds; [congruence|reflexivity].
Qed.

(** ** What background detection does to [pendingQuestion] *)

Lemma detectQuestionForTab_extracted env tab page w :
  isLeetCodeQuestionUrl (tabUrl tab) = true ->
  executeScript env (tick w) (tabId tab) = ScriptRanIn page ->
  pageOk (questionScript page) = true ->
  pendingQuestion (ui (snd (detectQuestionForTab env (Some tab) w))) =
    match questionRef (ui w) with
    | Ready n _ =>
        if n =? pendingNumber (detectedQuestion (questionScript page)) then None
        else match pendingQuestion (ui w) with
             | Some p =>
                 if pendingNumber p =? pendingNumber (detectedQuestion (questionScript page))
                 then Some p else Some (detectedQuestion (questionScript page))
             | None => Some (detectedQuestion (questionScript page))
             end
    | _ =>
        match pendingQuestion (ui w) with
        | Some p =>
            if pendingNumber p =? pendingNumber (detectedQuestion (questionScript page))
            then Some p else Some (detectedQuestion (questionScript page))
        | None => Some (detectedQuestion (questionScript page))
        end
    end.
Proof.
  intros Hurl Hscript Hok. pose proof (questionScript_truthy page Hok) as Hnum.
  unfold detectQuestionForTab, tryCatch, bind, extractQuestionFromTab, ask, bind.
  rewrite Hurl. cbn [negb]. rewrite Hscript. cbn [ret fst snd].
  rewrite Hok, Hnum. cbn [negb orb getUi ui].
  fold (detectedQuestion (questionScript page)).
  destruct (questionRef (ui w)) as [| | | m | n t]; cbn;
    try destruct (n =? _); cbn;
    destruct (pendingQuestion (ui w)) as [p|]; reflexivity.
Qed.

(** X1.  The routine compares with [questionRef.current].  For a
    detection on a question page in which the page
    script finds a question number, while [questionRef.current] is
    [ready] with number [n]: when the detected number is [n],
    [pendingQuestion] is cleared; when it differs, [pendingQuestion]
    becomes the detected number and title, except that a pending
    question that already has the detected number is left as it is; and
    a second detection of the same number right after the first leaves
    [pendingQuestion] as the first one left it.  Numbers are compared as
    JavaScript numbers, that is after [Number] has rounded them. *)
Theorem detectQuestionForTab_sets_pending (env : Env) (tab : Tab) (page : Page)
    (w : World) (n : N) (t : jstring) :
  questionRef (ui w) = Ready n t ->
  isLeetCodeQuestionUrl (tabUrl tab) = true ->
  executeScript env (tick w) (tabId tab) = ScriptRanIn page ->
  pageOk (questionScript page) = true ->
  let detected := detectedQuestion (questionScript page) in
  let w1 := snd (detectQuestionForTab env (Some tab) w) in
  (n = pendingNumber detected -> pendingQuestion (ui w1) = None)
  /\ (n <> pendingNumber detected ->
      (forall p, pendingQuestion (ui w) = Some p ->
                 pendingNumber p = pendingNumber detected ->
                 pendingQuestion (ui w1) = Some p)
      /\ ((forall p, pendingQuestion (ui w) = Some p ->
                     pendingNumber p <> pendingNumber detected) ->
          pendingQuestion (ui w1) = Some detected)
      /\ (forall page2,
            executeScript env (tick w1) (tabId tab) = ScriptRanIn page2 ->
            pageOk (questionScript page2) = true ->
            pendingNumber (detectedQuestion (questionScript page2)) = pendingNumber detected ->
            pendingQuestion (ui (snd (detectQuestionForTab env (Some tab) w1)))
            = pendingQuestion (ui w1))).
Proof.
  intros Href Hurl Hscript Hok detected w1.
  assert (H1 : pendingQuestion (ui w1) =
               if n =? pendingNumber detected then None
               else match pendingQuestion (ui w) with
                    | Some p => if pendingNumber p =? pendingNumber detected
                                then Some p else Some detected
                    | None => Some detected
                    end).
  { subst w1. rewrite (detectQuestionForTab_extracted env tab page w) by assumption.
    rewrite Href. reflexivity. }
  split.
  - intros ->. rewrite H1, N.eqb_refl. reflexivity.
  - intros Hne. apply N.eqb_neq in Hne. rewrite Hne in H1.
    split; [|split].
    + intros p Hp Hpn. rewrite H1, Hp. apply N.eqb_eq in Hpn. rewrite Hpn. reflexivity.
    + intros Hother. rewrite H1. destruct (pendingQuestion (ui w)) as [p|]; [|reflexivity].
      specialize (Hother p eq_refl). apply N.eqb_neq in Hother. rewrite Hother. reflexivity.
    + intros page2 Hscript2 Hok2 Hsame.
      destruct (detectQuestionForTab_frame env (Some tab) w)
        as (_ & _ & _ & _ & _ & _ & _ & _ & _ & Hr1 & _).
      fold w1 in Hr1.
      rewrite (detectQuestionForTab_extracted env tab page2 w1) by assumption.
      rewrite Hr1, Href, Hsame, Hne.
      rewrite H1. destruct (pendingQuestion (ui w)) as [p|].
      * destruct (pendingNumber p =? pendingNumber detected) eqn:E; [rewrite E; reflexivity|].
        subst detected. rewrite N.eqb_refl. reflexivity.
      * subst detected. rewrite N.eqb_refl. reflexivity.
Qed.

(** C2.  [detectQuestionForTab] compares the detected number with
    [questionRef.current], and the effect that copies [question] into
    [questionRef.current] runs only after the component has rendered.
    The popup is opened on the page of question 42 with nothing stored;
    [bootstrap] has made question 42 [ready] and the effect has not run
    yet, so that [questionRef.current] still reads [checking].  A
    detection of question 42 on that tab now sets [pendingQuestion] to
    question 42, where the number is the one of the [ready] question and
    [pendingQuestion] should be cleared.  After the effect has run, the
    same detection leaves [pendingQuestion] empty. *)
Theorem detectQuestionForTab_reads_stale_question :
  let w := snd (bootstrap question42Env (worldOf initialState emptyStorage)) in
  question (ui w) = Ready 42 (lit "42. Trapping Rain Water")
  /\ questionRef (ui w) = Checking
  /\ pendingQuestion (ui w) = None
  /\ pendingQuestion (ui (snd (detectQuestionForTab question42Env (Some question42Tab) w)))
     = Some question42
  /\ pendingQuestion
       (ui (snd (detectQuestionForTab question42Env (Some question42Tab) (syncQuestionRef w))))
     = None.
Proof. vm_compute. repeat split; reflexivity. Qed.

(** ** Running a sequence step by step *)

Lemma run_bind {A B} (m : Async A) (k : A -> Async B) w a w1 :
  m w = (Returned a, w1) -> bind m k w = k a w1.
Proof. intros H. unfold bind. rewrite H. reflexivity. Qed.

(** ** Resetting the session *)

Lemma clearLocalSession_spec cs w :
  fst (clearLocalSession cs w) = Returned tt
  /\ session (ui (snd (clearLocalSession cs w))) = None
  /\ lcAssistantSession (storage (snd (clearLocalSession cs w))) = None
  /\ messages (ui (snd (clearLocalSession cs w))) = []
  /\ (forall s, cs = Some s -> truthy (sessionId s) = true ->
        default ∅ (lcAssistantInitialized (storage (snd (clearLocalSession cs w))))
          !! propertyKey (sessionId s) = None).
Proof.
  unfold clearLocalSession, bind, removeSession, readInitialized, modifyStorage.
  cbn [fst snd storage lcAssistantInitialized].
  destruct cs as [s|]; [destruct (truthy (sessionId s)) eqn:Ht|].
  - unfold truthyEntry. cbn [andb].
    destruct (default ∅ (lcAssistantInitialized (storage w)) !! propertyKey (sessionId s)) eqn:E;
      [|destruct (bool_decide (propertyKey (sessionId s) ∈ inheritedKeys))];
      cbn; repeat split; intros s' [= <-] _;
      first [apply lookup_delete_eq | exact E].
  - cbn. repeat split. intros s' [= <-]. congruence.
  - cbn. repeat split. discriminate.
Qed.

Lemma resetSession_request_returns env (cs : option Session) w :
  exists msg w1,
    tryCatch
      (match cs with
       | Some s => deleteSessionRequest env s
       | None => ret tt
       end ;; ret [])
      (fun err => ret (messageOr err (lit "Failed to reset session."))) w
    = (Returned msg, w1).
Proof.
  unfold tryCatch, bind.
  match goal with
  | |- context [match ?m w with _ => _ end] => destruct (m w) as [[u|e] w1]
  end; cbn; eauto.
Qed.

(** X2.  [resetSession] always ends normally, whatever the backend does
    with the request to delete the session (accepts it, answers with a
    status that is not ok, or the request fails), and leaves no session
    in the state, no session entry in storage, an empty transcript, and,
    when the session has an id, no entry for it in the initialized
    map. *)
Theorem resetSession_clears_local_state (env : Env) (cur : AppState) (w : World) :
  let w' := snd (resetSession env cur w) in
  fst (resetSession env cur w) = Returned tt
  /\ session (ui w') = None
  /\ lcAssistantSession (storage w') = None
  /\ messages (ui w') = []
  /\ (forall s, session cur = Some s -> truthy (sessionId s) = true ->
        default ∅ (lcAssistantInitialized (storage w')) !! propertyKey (sessionId s) = None).
Proof.
  unfold resetSession.
  do 2 (erewrite run_bind by reflexivity).
  match goal with
  | |- context [bind (tryCatch ?b ?h) ?k ?w0] =>
      destruct (resetSession_request_returns env (session cur) w0) as (msg & w1 & Hpre)
  end.
  erewrite run_bind by exact Hpre.
  destruct (clearLocalSession_spec (session cur) w1) as (Hr & Hs & Hst & Hm & Hi).
  destruct (clearLocalSession (session cur) w1) as [[[]|e] w2] eqn:Hc; cbn in Hr; [|discriminate].
  erewrite run_bind by exact Hc.
  erewrite run_bind by reflexivity.
  cbn in Hs, Hst, Hm, Hi |- *. auto.
Qed.

Lemma clearLocalSession_no_id s w :
  truthy (sessionId s) = false ->
  lcAssistantInitialized (storage (snd (clearLocalSession (Some s) w)))
  = lcAssistantInitialized (storage w).
Proof. intros Hid. unfold clearLocalSession. rewrite Hid. reflexivity. Qed.

Lemma resetSession_request_storage env (cs : option Session) w :
  storage
    (snd (tryCatch
            (match cs with
             | Some s => deleteSessionRequest env s
             | None => ret tt
             end ;; ret [])
            (fun err => ret (messageOr err (lit "Failed to reset session."))) w))
  = storage w.
Proof.
  unfold tryCatch, bind. destruct cs as [s|]; [|reflexivity].
  unfold deleteSessionRequest, bind, fetch.
  destruct (backend env _ _) as [e|[] [e|d]]; reflexivity.
Qed.

(** C3.  A session whose [sessionId] is missing or empty (one made from
    an answer to the creation that carried an auth token and no
    [session_id]) has its questions recorded in the initialized map
    under the property name that the missing id gives, [undefined].
    [resetSession] removes the entry only [if (currentSession?.sessionId
    && ...)]: for such a session it clears the session from the state
    and from storage and leaves the initialized map as it was, with the
    entry of the session in it. *)
Theorem resetSession_keeps_record_of_session_without_id (env : Env) (cur : AppState)
    (w : World) (s : Session) :
  session cur = Some s ->
  truthy (sessionId s) = false ->
  let w' := snd (resetSession env cur w) in
  session (ui w') = None
  /\ lcAssistantSession (storage w') = None
  /\ lcAssistantInitialized (storage w') = lcAssistantInitialized (storage w)
  /\ forall n, recorded (storage w') (sessionId s) n = recorded (storage w) (sessionId s) n.
Proof.
  intros Hs Hid w'.
  assert (H : session (ui w') = None
              /\ lcAssistantSession (storage w') = None
              /\ lcAssistantInitialized (storage w') = lcAssistantInitialized (storage w)).
  { subst w'. unfold resetSession. rewrite Hs.
    do 2 (erewrite run_bind by reflexivity).
    match goal with
    | |- context [bind (tryCatch ?b ?h) ?k ?w0] =>
        destruct (resetSession_request_returns env (Some s) w0) as (msg & w1 & Hpre);
        pose proof (resetSession_request_storage env (Some s) w0) as Hst
    end.
    cbv beta iota in Hst. rewrite Hpre in Hst. cbn [snd storage] in Hst.
    erewrite run_bind by exact Hpre.
    pose proof (clearLocalSession_no_id s w1 Hid) as Hc.
    destruct (clearLocalSession_spec (Some s) w1) as (Hr & Hses & Hsto & _).
    destruct (clearLocalSession (Some s) w1) as [[[]|e] w2] eqn:Ec; cbn in Hr; [|discriminate].
    erewrite run_bind by exact Ec.
    erewrite run_bind by reflexivity.
    cbn in Hc, Hses, Hsto |- *. rewrite Hc, Hst. auto. }
  destruct H as (H1 & H2 & H3).
  repeat split; [exact H1|exact H2|exact H3|].
  intros n. unfold recorded. rewrite H3. reflexivity.
Qed.

(** ** The pending question and the ready question *)

Lemma sameQuestionAndPending_refl w : sameQuestionAndPending w w.
Proof. split; reflexivity. Qed.

Lemma sameQuestionAndPending_trans a b c :
  sameQuestionAndPending a b -> sameQuestionAndPending b c -> sameQuestionAndPending a c.
Proof. intros [H1 H2] [H3 H4]. split; congruence. Qed.

Lemma samePending_refl w : samePending w w.
Proof. reflexivity. Qed.

Lemma samePending_trans a b c : samePending a b -> samePending b c -> samePending a c.
Proof. unfold samePending. congruence. Qed.

Lemma keeps_weaken {A} (m : Async A) :
  keeps sameQuestionAndPending m -> keeps samePending m.
Proof. intros H w. apply H. Qed.

Create HintDb keeps.

Lemma keeps_qp_fetch env r : keeps sameQuestionAndPending (fetch env r).
Proof. intros w. unfold fetch. destruct (backend env (tick w) r); split; reflexivity. Qed.

Lemma keeps_qp_ask {A} (f : nat -> A) : keeps sameQuestionAndPending (ask f).
Proof. keeps_prim. Qed.

Lemma keeps_qp_modifyStorage f : keeps sameQuestionAndPending (modifyStorage f).
Proof. keeps_prim. Qed.

Lemma keeps_qp_setSession v : keeps sameQuestionAndPending (setSession v).
Proof. keeps_prim. Qed.

Lemma keeps_qp_setUsername v : keeps sameQuestionAndPending (setUsername v).
Proof. keeps_prim. Qed.

Lemma keeps_qp_setMessages f : keeps sameQuestionAndPending (setMessages f).
Proof. keeps_prim. Qed.

Lemma keeps_qp_setChatInput v : keeps sameQuestionAndPending (setChatInput v).
Proof. keeps_prim. Qed.

Lemma keeps_qp_setBusy v : keeps sameQuestionAndPending (setBusy v).
Proof. keeps_prim. Qed.

Lemma keeps_qp_setIsSending v : keeps sameQuestionAndPending (setIsSending v).
Proof. keeps_prim. Qed.

Lemma keeps_qp_setStatus v : keeps sameQuestionAndPending (setStatus v).
Proof. keeps_prim. Qed.

Lemma keeps_qp_setRefreshingQuestion v : keeps sameQuestionAndPending (setRefreshingQuestion v).
Proof. keeps_prim. Qed.

Lemma keeps_qp_setLastTabUrlRef v : keeps sameQuestionAndPending (setLastTabUrlRef v).
Proof. keeps_prim. Qed.

#[local] Hint Resolve keeps_qp_fetch keeps_qp_ask keeps_qp_modifyStorage keeps_qp_setSession
  keeps_qp_setUsername keeps_qp_setMessages keeps_qp_setChatInput keeps_qp_setBusy
  keeps_qp_setIsSending keeps_qp_setStatus keeps_qp_setRefreshingQuestion
  keeps_qp_setLastTabUrlRef : keeps.

Ltac keeps_qp :=
  keeps_split sameQuestionAndPending_refl sameQuestionAndPending_trans;
  auto with keeps.

Lemma keeps_qp_ensureQuestionInitialized env sid tok n title :
  keeps sameQuestionAndPending (ensureQuestionInitialized env sid tok n title).
Proof. unfold ensureQuestionInitialized, writeInitialized. keeps_qp. Qed.

Lemma keeps_qp_hydrateMessages env sid tok :
  keeps sameQuestionAndPending (hydrateMessages env sid tok).
Proof. unfold hydrateMessages. keeps_qp. Qed.

#[local] Hint Resolve keeps_qp_ensureQuestionInitialized keeps_qp_hydrateMessages : keeps.

Lemma keeps_qp_initializeForQuestion env sess n title :
  keeps sameQuestionAndPending (initializeForQuestion env sess n title).
Proof. unfold initializeForQuestion. keeps_qp. Qed.

#[local] Hint Resolve keeps_qp_initializeForQuestion : keeps.

Lemma keeps_qp_encodeURIComponent name :
  keeps sameQuestionAndPending (encodeURIComponent name).
Proof. unfold encodeURIComponent. keeps_qp. Qed.

#[local] Hint Resolve keeps_qp_encodeURIComponent : keeps.

Lemma keeps_qp_createSessionWithName env cur name override :
  keeps sameQuestionAndPending (createSessionWithName env cur name override).
Proof. unfold createSessionWithName, writeSession, encodeURIComponent. keeps_qp. Qed.

#[local] Hint Resolve keeps_qp_createSessionWithName : keeps.

Lemma keeps_qp_handleCreateSession env cur :
  keeps sameQuestionAndPending (handleCreateSession env cur).
Proof. unfold handleCreateSession. keeps_qp. Qed.

Lemma keeps_qp_handleSendMessage env cur :
  keeps sameQuestionAndPending (handleSendMessage env cur).
Proof. unfold handleSendMessage. keeps_qp. Qed.

Lemma keeps_qp_deleteSessionRequest env s :
  keeps sameQuestionAndPending (deleteSessionRequest env s).
Proof. unfold deleteSessionRequest. keeps_qp. Qed.

Lemma keeps_qp_clearLocalSession cs :
  keeps sameQuestionAndPending (clearLocalSession cs).
Proof. unfold clearLocalSession, removeSession, writeInitialized. keeps_qp. Qed.

#[local] Hint Resolve keeps_qp_deleteSessionRequest keeps_qp_clearLocalSession : keeps.

Lemma keeps_qp_resetSession env cur :
  keeps sameQuestionAndPending (resetSession env cur).
Proof. unfold resetSession. keeps_qp. Qed.

Lemma keeps_pending_setQuestion v : keeps samePending (setQuestion v).
Proof. keeps_prim. Qed.

Lemma keeps_pending_bootstrap env : keeps samePending (bootstrap env).
Proof.
  unfold bootstrap, getActiveTab, extractQuestionFromTab, removeSession.
  keeps_split samePending_refl samePending_trans;
    first [apply keeps_pending_setQuestion | apply keeps_weaken; auto with keeps].
Qed.

Lemma handleReloadForNewQuestion_clears_pending env cur w :
  pendingQuestion (ui (snd (handleReloadForNewQuestion env cur w))) = None.
Proof.
  unfold handleReloadForNewQuestion.
  do 3 (erewrite run_bind by reflexivity).
  match goal with
  | |- pendingQuestion (ui (snd (?m ?w0))) = None =>
      let H := fresh in
      assert (H : keeps samePending m); [|exact (H w0)]
  end.
  keeps_split samePending_refl samePending_trans;
    first [apply keeps_pending_bootstrap | apply keeps_weaken; auto with keeps].
Qed.

Lemma detectQuestionForTab_consistent env tab w :
  questionRef (ui w) = question (ui w) ->
  pendingConsistent (ui w) ->
  pendingConsistent (ui (snd (detectQuestionForTab env tab w))).
Proof.
  intros Hsync Hinv.
  destruct (detectQuestionForTab_frame env tab w) as (_ & _ & Hq & _).
  unfold pendingConsistent in *. rewrite Hq.
  revert Hq. unfold detectQuestionForTab, tryCatch, bind, extractQuestionFromTab, ask, bind.
  destruct tab as [tab|]; [|cbn; intros; discriminate].
  destruct (isLeetCodeQuestionUrl (tabUrl tab)); [|cbn; intros; discriminate].
  cbn [negb].
  destruct (executeScript env (tick w) (tabId tab)) as [e| |page];
    cbn [ret fst snd throw]; [cbn; eauto|cbn; intros; discriminate|].
  destruct (negb (pageOk (questionScript page))
            || negb (truthy (questionNumber (questionScript page))));
    [cbn; intros; discriminate|].
  cbn [getUi ui]. rewrite Hsync.
  intros _ p n t. cbn.
  destruct (question (ui w)) as [| | | m | n0 t0] eqn:Eq; try discriminate.
  destruct (n0 =? _) eqn:En; cbn; [discriminate|].
  intros Hp [= <- <-]. apply N.eqb_neq in En.
  destruct (pendingQuestion (ui w)) as [p0|] eqn:Ep.
  - destruct (pendingNumber p0 =? _) eqn:Ep0.
    + injection Hp as <-. apply N.eqb_eq in Ep0. congruence.
    + injection Hp as <-. cbn. congruence.
  - injection Hp as <-. cbn. congruence.
Qed.

Lemma pendingConsistent_same w w' :
  sameQuestionAndPending w w' -> pendingConsistent (ui w) -> pendingConsistent (ui w').
Proof. intros [Hq Hp]. unfold pendingConsistent. rewrite Hq, Hp. auto. Qed.

Lemma handleUpdated_consistent env changeUrl changeStatus tab w :
  questionRef (ui w) = question (ui w) ->
  pendingConsistent (ui w) ->
  pendingConsistent (ui (snd (handleUpdated env changeUrl changeStatus tab w))).
Proof.
  intros Hsync Hinv. unfold handleUpdated.
  destruct (truthy changeUrl || bool_decide (changeStatus = Some (lit "complete")));
    [|exact Hinv].
  do 2 (erewrite run_bind by reflexivity).
  apply detectQuestionForTab_consistent; [exact Hsync|exact Hinv].
Qed.

Lemma checkActiveTab_consistent env w :
  questionRef (ui w) = question (ui w) ->
  pendingConsistent (ui w) ->
  pendingConsistent (ui (snd (checkActiveTab env w))).
Proof.
  intros Hsync Hinv. unfold checkActiveTab, tryCatch.
  unfold getActiveTab. erewrite run_bind by reflexivity.
  destruct (tabsQuery env (tick w)) as [t|]; [|exact Hinv].
  erewrite run_bind by reflexivity.
  cbn [ui]. destruct (decide (Some (tabUrl t) = lastTabUrlRef (ui w))); [exact Hinv|].
  erewrite run_bind by reflexivity.
  match goal with
  | |- context [detectQuestionForTab env ?tb ?w0] =>
      pose proof (detectQuestionForTab_consistent env tb w0 Hsync Hinv) as H;
      pose proof (detectQuestionForTab_returns env tb w0) as Hr;
      destruct (detectQuestionForTab env tb w0) as [[[]|e] w2]
  end; [exact H|discriminate].
Qed.



(** C9.  [bootstrap] sets [question] and never touches
    [pendingQuestion].  The popup is opened on the page of question 42
    with nothing stored.  While [bootstrap] waits for its first answer,
    the tab reports that it has finished loading: [handleUpdated] runs
    the detection, which finds question 42 and, [questionRef.current]
    not being [ready], sets [pendingQuestion] to it; the invariant holds
    there, [question] not being [ready].  [bootstrap] then goes on and
    makes question 42 [ready]: [pendingQuestion] now names the [ready]
    question.  It stays so: the polling timer finds the address of the
    tab unchanged and does not run the detection again. *)
Theorem bootstrap_leaves_pending_on_ready_question :
  let w0 := worldOf initialState emptyStorage in
  let w1 := snd (handleUpdated question42Env None (Some (lit "complete"))
                   (Some question42Tab) w0) in
  let w2 := snd (bootstrap question42Env w1) in
  let w3 := snd (checkActiveTab question42Env (syncQuestionRef w2)) in
  (question (ui w1) = Checking /\ pendingQuestion (ui w1) = Some question42)
  /\ pendingConsistent (ui w1)
  /\ (question (ui w2) = Ready 42 (lit "42. Trapping Rain Water")
      /\ pendingQuestion (ui w2) = Some question42)
  /\ ~ pendingConsistent (ui w2)
  /\ (question (ui w3) = Ready 42 (lit "42. Trapping Rain Water")
      /\ pendingQuestion (ui w3) = Some question42).
Proof.
  intros w0 w1 w2 w3.
  assert (H1 : question (ui w1) = Checking /\ pendingQuestion (ui w1) = Some question42)
    by (vm_compute; split; reflexivity).
  assert (H2 : question (ui w2) = Ready 42 (lit "42. Trapping Rain Water")
               /\ pendingQuestion (ui w2) = Some question42)
    by (vm_compute; split; reflexivity).
  assert (H3 : question (ui w3) = Ready 42 (lit "42. Trapping Rain Water")
               /\ pendingQuestion (ui w3) = Some question42)
    by (vm_compute; split; reflexivity).
  repeat split; try apply H1; try apply H2; try apply H3.
  - intros p n t _ Hq. rewrite (proj1 H1) in Hq. discriminate.
  - intros Hinv. destruct H2 as [Hq Hp]. exact (Hinv _ _ _ Hp Hq eq_refl).
Qed.

(** ** Registering a question once *)

Lemma ensureQuestionInitialized_recorded env sid tok n title w :
  truthyNumber (recorded (storage w) sid n) = true ->
  ensureQuestionInitialized env sid tok n title w = (Returned tt, w).
Proof.
  intros H. unfold ensureQuestionInitialized, recorded in *.
  erewrite run_bind by reflexivity. rewrite H. reflexivity.
Qed.

Lemma ensureQuestionInitialized_accepted env sid tok n title w d :
  truthy tok = true ->
  truthyNumber (recorded (storage w) sid n) = false ->
  backend env (tick w) (questionsRequest sid tok n title) = Response true (inr d) ->
  isFalse (dataOk d) = false ->
  let w1 := snd (ensureQuestionInitialized env sid tok n title w) in
  fst (ensureQuestionInitialized env sid tok n title w) = Returned tt
  /\ requests w1 = requests w ++ [questionsRequest sid tok n title]
  /\ recorded (storage w1) sid n = Some (dateNow env (S (tick w))).
Proof.
  intros Htok Hrec Hresp Hok.
  unfold ensureQuestionInitialized, recorded in *.
  erewrite run_bind by reflexivity. rewrite Hrec, Htok. cbn [negb].
  erewrite run_bind by (unfold fetch; rewrite Hresp; reflexivity).
  cbn [snd fst json]. erewrite run_bind by reflexivity.
  rewrite Hok. cbn [negb orb].
  erewrite run_bind by reflexivity.
  cbn. repeat split.
  rewrite lookup_insert_eq. cbn. apply lookup_insert_eq.
Qed.

(** C4, amended.  When the pair is not yet recorded, the auth token is
    present, the backend accepts the registration and the clock does not
    read zero, two calls of [ensureQuestionInitialized] for the same
    session and question send [POST /questions] exactly once: the first
    call sends it and records the pair, the second finds the record and
    returns without touching anything. *)
Theorem ensureQuestionInitialized_twice_registers_once (env : Env)
    (sid tok : option jstring) (n : N) (title : jstring) (w : World) (d : Data) :
  truthy tok = true ->
  truthyNumber (recorded (storage w) sid n) = false ->
  backend env (tick w) (questionsRequest sid tok n title) = Response true (inr d) ->
  isFalse (dataOk d) = false ->
  dateNow env (S (tick w)) <> 0 ->
  let w1 := snd (ensureQuestionInitialized env sid tok n title w) in
  let w2 := snd (ensureQuestionInitialized env sid tok n title w1) in
  requests w1 = requests w ++ [questionsRequest sid tok n title]
  /\ recorded (storage w1) sid n = Some (dateNow env (S (tick w)))
  /\ ensureQuestionInitialized env sid tok n title w1 = (Returned tt, w1)
  /\ registrationCalls (requests w2) = S (registrationCalls (requests w)).
Proof.
  intros Htok Hrec Hresp Hok Hnow w1 w2.
  destruct (ensureQuestionInitialized_accepted env sid tok n title w d Htok Hrec Hresp Hok)
    as (_ & Hreq & Hst).
  fold w1 in Hreq, Hst.
  assert (H2 : ensureQuestionInitialized env sid tok n title w1 = (Returned tt, w1)).
  { apply ensureQuestionInitialized_recorded. rewrite Hst. cbn.
    apply negb_true_iff, N.eqb_neq, Hnow. }
  repeat split; try assumption.
  subst w2. rewrite H2. cbn [snd]. rewrite Hreq.
  unfold registrationCalls. rewrite List.filter_app, List.length_app. cbn. lia.
Qed.

(** ** Calls without credentials *)

Lemma ensureQuestionInitialized_no_token env sid tok n title w :
  truthy tok = false ->
  requests (snd (ensureQuestionInitialized env sid tok n title w)) = requests w.
Proof.
  intros Htok. unfold ensureQuestionInitialized.
  erewrite run_bind by reflexivity.
  destruct (truthyNumber _); [reflexivity|]. rewrite Htok. reflexivity.
Qed.

Lemma hydrateMessages_no_token env sid tok w :
  truthy tok = false ->
  hydrateMessages env sid tok w = (Thrown (lit "Session auth token missing."), w).
Proof. intros Htok. unfold hydrateMessages. rewrite Htok. reflexivity. Qed.

(** X3.  The guard is on the auth token.  Without a
    token, the registration of a question, the fetch of the transcript,
    the initialization that runs both, and the sending of a chat message
    stop before any request is sent (the registration and the fetch by
    throwing, unless the question is already recorded; the send with a
    status message).  A reset sends nothing when no session is held. *)
Theorem no_auth_token_no_request (env : Env) :
  (forall sid tok n title w,
      truthy tok = false ->
      requests (snd (ensureQuestionInitialized env sid tok n title w)) = requests w
      /\ (truthyNumber (recorded (storage w) sid n) = false ->
          ensureQuestionInitialized env sid tok n title w
          = (Thrown (lit "Session auth token missing."), w)))
  /\ (forall sid tok w,
        truthy tok = false ->
        hydrateMessages env sid tok w = (Thrown (lit "Session auth token missing."), w))
  /\ (forall sess n title w,
        truthy (authToken sess) = false ->
        requests (snd (initializeForQuestion env sess n title w)) = requests w)
  /\ (forall cur sess w,
        session cur = Some sess ->
        truthy (authToken sess) = false ->
        requests (snd (handleSendMessage env cur w)) = requests w)
  /\ (forall cur w,
        session cur = None ->
        requests (snd (resetSession env cur w)) = requests w).
Proof.
  repeat split.
  - apply ensureQuestionInitialized_no_token; assumption.
  - intros Hrec. unfold ensureQuestionInitialized, recorded in *.
    erewrite run_bind by reflexivity. rewrite Hrec, H. reflexivity.
  - intros; apply hydrateMessages_no_token; assumption.
  - intros sess n title w Htok. unfold initializeForQuestion.
    erewrite run_bind by reflexivity. unfold tryCatch. rewrite Htok. reflexivity.
  - intros cur sess w Hs Htok. unfold handleSendMessage. rewrite Hs.
    destruct (negb (isReady (question cur)) || isSending cur); [reflexivity|].
    rewrite Htok. reflexivity.
  - intros cur w Hs. unfold resetSession. rewrite Hs. reflexivity.
Qed.

(** ** Calls with a token and no session id *)

Lemma requestsGrow_refl w : requestsGrow w w.
Proof. exists []. symmetry. apply app_nil_r. Qed.

Lemma requestsGrow_trans a b c : requestsGrow a b -> requestsGrow b c -> requestsGrow a c.
Proof. intros [r1 H1] [r2 H2]. exists (r1 ++ r2). rewrite H2, H1, app_assoc. reflexivity. Qed.

Lemma sendsFirst_then r a b c : sendsFirst r a b -> requestsGrow b c -> sendsFirst r a c.
Proof.
  intros [r1 H1] [r2 H2]. exists (r1 ++ r2). rewrite H2, H1, <- app_assoc. reflexivity.
Qed.

Lemma keeps_grow_fetch env r : keeps requestsGrow (fetch env r).
Proof. intros w. exists [r]. unfold fetch. destruct (backend env (tick w) r); reflexivity. Qed.

Lemma keeps_grow_modifyUi f : keeps requestsGrow (modifyUi f).
Proof. intros w. exists []. cbn. rewrite app_nil_r. reflexivity. Qed.

Lemma keeps_grow_hydrateMessages env sid tok : keeps requestsGrow (hydrateMessages env sid tok).
Proof.
  unfold hydrateMessages.
  keeps_split requestsGrow_refl requestsGrow_trans;
    first [apply keeps_grow_fetch | apply keeps_grow_modifyUi].
Qed.

Lemma fetch_sendsFirst {A} env r (k : bool * (jstring + Data) -> Async A) :
  (forall a, keeps requestsGrow (k a)) -> keeps (sendsFirst r) (bind (fetch env r) k).
Proof.
  intros Hk w. unfold bind, fetch.
  destruct (backend env (tick w) r) as [e|ok body]; cbn [snd].
  - exists []. reflexivity.
  - eapply sendsFirst_then; [|apply Hk]. exists []. reflexivity.
Qed.

Lemma tryCatch_sendsFirst {A} r (m : Async A) h :
  keeps (sendsFirst r) m -> (forall e, keeps requestsGrow (h e)) ->
  keeps (sendsFirst r) (tryCatch m h).
Proof.
  intros Hm Hh w. unfold tryCatch. specialize (Hm w).
  destruct (m w) as [[a|e] w1]; cbn [snd] in *; [exact Hm|].
  eapply sendsFirst_then; [exact Hm|apply Hh].
Qed.

Lemma tryFinally_sendsFirst {A} r (m : Async A) c :
  keeps (sendsFirst r) m -> keeps requestsGrow c -> keeps (sendsFirst r) (tryFinally m c).
Proof.
  intros Hm Hc w. unfold tryFinally. specialize (Hm w).
  destruct (m w) as [res w1]. specialize (Hc w1).
  destruct (c w1) as [[u|e] w2]; cbn [snd] in *; eapply sendsFirst_then; eauto.
Qed.

Lemma buildAuthHeaders_incomplete s :
  truthy (sessionId s) && truthy (authToken s) = false -> buildAuthHeaders (Some s) = [].
Proof.
  intros H. unfold buildAuthHeaders.
  destruct (truthy (sessionId s)), (truthy (authToken s)); try discriminate; reflexivity.
Qed.

Lemma keeps_requests_clearLocalSession cs : keeps sameRequests (clearLocalSession cs).
Proof.
  unfold clearLocalSession, removeSession, writeInitialized.
  keeps_split (fun w => eq_refl (requests w))
              (fun a b c (H1 : sameRequests a b) (H2 : sameRequests b c) =>
                 eq_trans H2 H1 : sameRequests a c);
    intros ?; reflexivity.
Qed.

(** C5.  [bootstrap] keeps a stored session only when it has both a
    session id and an auth token, [to avoid broken requests]; the
    functions that send the authenticated requests test the token
    alone, and [resetSession] tests nothing.  With an auth token and no
    session id, [buildAuthHeaders] gives no header and the request goes
    out without credentials: the registration of a question that is not
    yet recorded, the fetch of the transcript, and the chat message
    (first of the requests of [handleSendMessage]).  The request to
    delete the session goes out without credentials when either of the
    two is missing. *)
Theorem requests_go_out_without_credentials (env : Env) :
  (forall sid tok n title w,
      truthy sid = false -> truthy tok = true ->
      truthyNumber (recorded (storage w) sid n) = false ->
      requests (snd (ensureQuestionInitialized env sid tok n title w))
      = requests w
          ++ [PostQuestions [contentTypeJson] n
                (match title with [] => None | _ :: _ => Some title end)])
  /\ (forall sid tok w,
        truthy sid = false -> truthy tok = true ->
        requests (snd (hydrateMessages env sid tok w)) = requests w ++ [GetWhoami []])
  /\ (forall cur sess w,
        session cur = Some sess ->
        truthy (sessionId sess) = false -> truthy (authToken sess) = true ->
        isReady (question cur) = true -> isSending cur = false ->
        trim (chatInput cur) <> [] ->
        exists rest,
          requests (snd (handleSendMessage env cur w))
          = requests w ++ PostChat [contentTypeJson] (trim (chatInput cur)) :: rest)
  /\ (forall cur sess w,
        session cur = Some sess ->
        truthy (sessionId sess) && truthy (authToken sess) = false ->
        requests (snd (resetSession env cur w)) = requests w ++ [PostDeleteSession []]).
Proof.
  split; [|split; [|split]].
  - intros sid tok n title w Hsid Htok Hrec.
    unfold ensureQuestionInitialized, recorded in *.
    erewrite run_bind by reflexivity. rewrite Hrec, Htok. cbn [negb].
    unfold questionsRequest, buildAuthHeaders. cbn [sessionId authToken]. rewrite Hsid.
    cbn [negb orb].
    unfold bind, fetch.
    destruct (backend env _ _) as [e|ok [e|d]]; cbn; try reflexivity.
    destruct (negb ok || isFalse (dataOk d)); reflexivity.
  - intros sid tok w Hsid Htok.
    unfold hydrateMessages. rewrite Htok. cbn [negb].
    unfold buildAuthHeaders. cbn [sessionId authToken]. rewrite Hsid. cbn [negb orb].
    unfold bind, fetch.
    destruct (backend env _ _) as [e|ok [e|d]]; cbn; try reflexivity.
    + destruct ok; reflexivity.
    + destruct ok; cbn; [|reflexivity]. destruct (dataMessages d); reflexivity.
  - intros cur sess w Hs Hsid Htok Hready Hsending Htext.
    unfold handleSendMessage. rewrite Hs, Hready, Hsending, Htok. cbn [negb orb].
    destruct (trim (chatInput cur)) as [|c0 text] eqn:Et; [congruence|].
    do 4 (erewrite run_bind by reflexivity).
    rewrite buildAuthHeaders_incomplete by (rewrite Hsid; reflexivity).
    match goal with
    | |- context [tryFinally ?m ?c ?w0] =>
        assert (H : keeps (sendsFirst (PostChat [contentTypeJson] (c0 :: text)))
                      (tryFinally m c));
          [|exact (H w0)]
    end.
    apply tryFinally_sendsFirst; [|apply keeps_grow_modifyUi].
    apply tryCatch_sendsFirst.
    + apply fetch_sendsFirst. intros a.
      keeps_split requestsGrow_refl requestsGrow_trans;
        first [apply keeps_grow_hydrateMessages | apply keeps_grow_modifyUi].
    + intros e.
      keeps_split requestsGrow_refl requestsGrow_trans; apply keeps_grow_modifyUi.
  - intros cur sess w Hs Hcred.
    unfold resetSession. rewrite Hs.
    do 2 (erewrite run_bind by reflexivity).
    unfold deleteSessionRequest. rewrite (buildAuthHeaders_incomplete sess Hcred).
    match goal with
    | |- requests (snd (bind ?m ?k ?w0)) = _ =>
        assert (Hm : exists msg w1, m w0 = (Returned msg, w1)
                                    /\ requests w1 = requests w ++ [PostDeleteSession []])
    end.
    { unfold tryCatch, bind, fetch.
      destruct (backend env _ _) as [e|[] [e|d]]; cbn; eauto. }
    destruct Hm as (msg & w1 & Hm & Hreq).
    erewrite run_bind by exact Hm.
    pose proof (keeps_requests_clearLocalSession (Some sess) w1) as Hc.
    destruct (clearLocalSession_spec (Some sess) w1) as (Hr & _).
    destruct (clearLocalSession (Some sess) w1) as [[[]|e] w2] eqn:Ec; cbn in Hr; [|discriminate].
    erewrite run_bind by exact Ec.
    erewrite run_bind by reflexivity.
    cbn in Hc |- *. unfold sameRequests in Hc. rewrite Hc. exact Hreq.
Qed.

(** ** The theorems at sample worlds *)

(** Question 17 is ready; the tab shows question 42: question 42 becomes
    pending. *)
Lemma detectQuestionForTab_sets_pending_witness :
  pendingQuestion
    (ui (snd (detectQuestionForTab
                (constantEnv offline 0 None
                   (ScriptRanIn (samplePage "42. Trapping Rain Water")))
                (Some (sampleTab "trapping-rain-water/"))
                (worldOf (readyState 17 "17. Letter Combinations" None None) emptyStorage))))
  = Some {| pendingNumber := 42; pendingTitle := lit "42. Trapping Rain Water" |}.
Proof.
  refine (proj1 (proj2 (proj2
    (detectQuestionForTab_sets_pending
       (constantEnv offline 0 None
          (ScriptRanIn (samplePage "42. Trapping Rain Water")))
       (sampleTab "trapping-rain-water/")
       (samplePage "42. Trapping Rain Water")
       (worldOf (readyState 17 "17. Letter Combinations" None None) emptyStorage)
       17 (lit "17. Letter Combinations") _ _ _ _) _)) _).
  - reflexivity.
  - vm_compute; reflexivity.
  - reflexivity.
  - vm_compute; reflexivity.
  - vm_compute. discriminate.
  - intros p Hp. discriminate Hp.
Defined.

(** The backend cannot be reached; the session and its record go all the
    same. *)
Lemma resetSession_clears_local_state_witness :
  default ∅
    (lcAssistantInitialized
       (storage
          (snd (resetSession (constantEnv offline 0 None noPage)
                  (readyState 17 "17. Letter Combinations" (Some sampleSession) None)
                  (worldOf (readyState 17 "17. Letter Combinations" (Some sampleSession) None)
                     (storageWith (Some sampleSession) (lit "s-1") 17 1700000000000))))))
    !! propertyKey (sessionId sampleSession) = None.
Proof.
  refine (proj2 (proj2 (proj2 (proj2
    (resetSession_clears_local_state (constantEnv offline 0 None noPage)
       (readyState 17 "17. Letter Combinations" (Some sampleSession) None)
       (worldOf (readyState 17 "17. Letter Combinations" (Some sampleSession) None)
          (storageWith (Some sampleSession) (lit "s-1") 17 1700000000000))))))
    sampleSession _ _).
  - reflexivity.
  - reflexivity.
Defined.

(** C4, as stated, fails: when the backend refuses the registration,
    nothing is recorded and the second call sends the request again. *)
Lemma ensureQuestionInitialized_twice_counterexample :
  let env := constantEnv refusing 1700000000000 None noPage in
  let w := worldOf initialState emptyStorage in
  let w1 := snd (ensureQuestionInitialized env (Some (lit "s-1")) (Some (lit "tok-1"))
                   17 (lit "17. Letter Combinations") w) in
  let w2 := snd (ensureQuestionInitialized env (Some (lit "s-1")) (Some (lit "tok-1"))
                   17 (lit "17. Letter Combinations") w1) in
  registrationCalls (requests w2) = 2%nat.
Proof. vm_compute. reflexivity. Qed.

Lemma ensureQuestionInitialized_twice_registers_once_witness :
  let env := constantEnv accepting 1700000000000 None noPage in
  let w := worldOf initialState emptyStorage in
  let w1 := snd (ensureQuestionInitialized env (Some (lit "s-1")) (Some (lit "tok-1"))
                   17 (lit "17. Letter Combinations") w) in
  let w2 := snd (ensureQuestionInitialized env (Some (lit "s-1")) (Some (lit "tok-1"))
                   17 (lit "17. Letter Combinations") w1) in
  registrationCalls (requests w2) = 1%nat.
Proof.
  intros env w w1 w2.
  refine (proj2 (proj2 (proj2
    (ensureQuestionInitialized_twice_registers_once env (Some (lit "s-1"))
       (Some (lit "tok-1")) 17 (lit "17. Letter Combinations") w emptyData _ _ _ _ _)))).
  - reflexivity.
  - reflexivity.
  - reflexivity.
  - reflexivity.
  - vm_compute. discriminate.
Defined.

(** With a token but no session id the registration goes out, and it
    carries no auth header. *)
Example registration_without_session_id :
  requests
    (snd (ensureQuestionInitialized (constantEnv accepting 1700000000000 None noPage)
            None (Some (lit "tok-1")) 17 (lit "17. Letter Combinations")
            (worldOf initialState emptyStorage)))
  = [PostQuestions [contentTypeJson] 17 (Some (lit "17. Letter Combinations"))].
Proof. vm_compute. reflexivity. Qed.

(** A message is typed and the session has no auth token: nothing is
    sent. *)
Lemma no_auth_token_no_request_witness :
  let sess := {| sessionId := Some (lit "s-1"); sessionUsername := None; authToken := None |} in
  requests
    (snd (handleSendMessage (constantEnv accepting 0 None noPage)
            (chatState sess "hint please")
            (worldOf (chatState sess "hint please") emptyStorage)))
  = [].
Proof.
  intros sess.
  refine (proj1 (proj2 (proj2 (proj2
    (no_auth_token_no_request (constantEnv accepting 0 None noPage)))))
    (chatState sess "hint please") sess _ _ _).
  - reflexivity.
  - reflexivity.
Defined.

(** The same message with a session that has a token and no id: it is
    sent, without credentials. *)
Lemma requests_go_out_without_credentials_witness :
  exists rest,
    requests
      (snd (handleSendMessage (constantEnv accepting 0 None noPage)
              (chatState tokenOnlySession "hint please")
              (worldOf (chatState tokenOnlySession "hint please") emptyStorage)))
    = PostChat [contentTypeJson] (lit "hint please") :: rest.
Proof.
  refine (proj1 (proj2 (proj2
            (requests_go_out_without_credentials (constantEnv accepting 0 None noPage))))
            (chatState tokenOnlySession "hint please") tokenOnlySession
            (worldOf (chatState tokenOnlySession "hint please") emptyStorage) _ _ _ _ _ _).
  - reflexivity.
  - reflexivity.
  - reflexivity.
  - reflexivity.
  - reflexivity.
  - vm_compute. discriminate.
Defined.

(** The backend answers the creation of a session with a token and no
    id while question 17 is [ready]: the question is registered and
    recorded under [undefined].  The session is then reset: the record
    is still there. *)
Lemma resetSession_keeps_record_of_session_without_id_witness :
  let env := constantEnv tokenOnlyAnswer 1700000000000 None noPage in
  let cur := readyState 17 "17. Letter Combinations" None None in
  let w1 := snd (createSessionWithName env cur (lit "ada") None (worldOf cur emptyStorage)) in
  let w2 := snd (resetSession env (ui w1) w1) in
  session (ui w1) = Some tokenOnlySession
  /\ recorded (storage w1) None 17 = Some 1700000000000
  /\ session (ui w2) = None
  /\ recorded (storage w2) None 17 = Some 1700000000000.
Proof.
  intros env cur w1 w2.
  assert (H0 : session (ui w1) = Some tokenOnlySession) by (vm_compute; reflexivity).
  assert (H1 : recorded (storage w1) None 17 = Some 1700000000000)
    by (vm_compute; reflexivity).
  destruct (resetSession_keeps_record_of_session_without_id env (ui w1) w1 tokenOnlySession)
    as (Hs & _ & _ & Hrec).
  - exact H0.
  - reflexivity.
  - split; [exact H0|]. split; [exact H1|]. split; [exact Hs|].
    rewrite <- H1. exact (Hrec 17).
Defined.

(** ** Scenarios *)

(** The three outcomes of the request to delete the session: the state
    left behind is the same, apart from the status line. *)
Example resetSession_backend_accepts :
  let w := worldOf (readyState 17 "17. Letter Combinations" (Some sampleSession) None)
             (storageWith (Some sampleSession) (lit "s-1") 17 1700000000000) in
  let w' := snd (resetSession (constantEnv accepting 0 None noPage) (ui w) w) in
  (session (ui w'), lcAssistantSession (storage w'), messages (ui w'),
   lcAssistantInitialized (storage w'), status (ui w'), busy (ui w'))
  = (None, None, [], Some ∅, [], false).
Proof. vm_compute. reflexivity. Qed.

Example resetSession_backend_refuses :
  let w := worldOf (readyState 17 "17. Letter Combinations" (Some sampleSession) None)
             (storageWith (Some sampleSession) (lit "s-1") 17 1700000000000) in
  let w' := snd (resetSession (constantEnv refusing 0 None noPage) (ui w) w) in
  (session (ui w'), lcAssistantSession (storage w'), messages (ui w'),
   lcAssistantInitialized (storage w'), status (ui w'), busy (ui w'))
  = (None, None, [], Some ∅, lit "Failed to delete session.", false).
Proof. vm_compute. reflexivity. Qed.

Example resetSession_backend_offline :
  let w := worldOf (readyState 17 "17. Letter Combinations" (Some sampleSession) None)
             (storageWith (Some sampleSession) (lit "s-1") 17 1700000000000) in
  let w' := snd (resetSession (constantEnv offline 0 None noPage) (ui w) w) in
  (session (ui w'), lcAssistantSession (storage w'), messages (ui w'),
   lcAssistantInitialized (storage w'), status (ui w'), busy (ui w'))
  = (None, None, [], Some ∅, lit "Failed to fetch", false).
Proof. vm_compute. reflexivity. Qed.

(** Question 17 is ready and the tab shows question 42: it becomes
    pending; the tab then shows question 17 again: nothing is pending. *)
Example detect_42_then_17 :
  let env :=
    {| backend := fun _ _ => offline;
       dateNow := fun _ => 0;
       tabsQuery := fun _ => None;
       executeScript := fun t _ =>
         match t with
         | 0%nat => ScriptRanIn (samplePage "42. Trapping Rain Water")
         | _ => ScriptRanIn (samplePage "17. Letter Combinations")
         end |} in
  let w := worldOf (readyState 17 "17. Letter Combinations" None None) emptyStorage in
  let w1 := snd (detectQuestionForTab env (Some (sampleTab "trapping-rain-water/")) w) in
  let w2 := snd (detectQuestionForTab env (Some (sampleTab "letter-combinations/")) w1) in
  pendingQuestion (ui w1)
  = Some {| pendingNumber := 42; pendingTitle := lit "42. Trapping Rain Water" |}
  /\ pendingQuestion (ui w2) = None.
Proof. vm_compute. split; reflexivity. Qed.

(** A user name that is empty once trimmed: no request, no change. *)
Lemma handleCreateSession_empty_username env cur w :
  trim (username cur) = [] -> handleCreateSession env cur w = (Returned tt, w).
Proof. intros H. unfold handleCreateSession. rewrite H. reflexivity. Qed.

(** How a session without an id comes about: the backend answers the
    creation with a token and no id.  The registration and the fetch of
    the transcript that follow go out without auth headers. *)
Example createSession_without_session_id :
  let answer :=
    Response true
      (inr {| dataOk := None; dataError := None; dataDetail := None;
              dataSessionId := None; dataUsername := None;
              dataAuthToken := Some (lit "tok-1"); dataMessages := None |}) in
  let cur := readyState 17 "17. Letter Combinations" None None in
  requests
    (snd (createSessionWithName (constantEnv answer 1700000000000 None noPage) cur
            (lit "ada") None (worldOf cur emptyStorage)))
  = [PostCreateSession (lit "ada");
     PostQuestions [contentTypeJson] 17 (Some (lit "17. Letter Combinations"));
     GetWhoami []].
Proof. vm_compute. reflexivity. Qed.

(* ================================================================== *)
(** * Part VI. Proofs about the renderer *)
(* ================================================================== *)

(** Literals as explicit lists of code units. *)
Ltac lits :=
  repeat match goal with
         | |- context [lit ?s] =>
             let v := eval vm_compute in (lit s) in change (lit s) with v
         end.

(** ** Code units *)

Lemma noneOf_app p a b : noneOf p (a ++ b) <-> noneOf p a /\ noneOf p b.
Proof. apply Forall_app. Qed.

Lemma noneOf_cons p c s : noneOf p (c :: s) <-> p c = false /\ noneOf p s.
Proof.
  split; [intros H; inversion H; subst; auto|intros [H1 H2]; constructor; assumption].
Qed.

Lemma noneOf_nil p : noneOf p [].
Proof. constructor. Qed.

Lemma noneOf_weaken (p q : N -> bool) s :
  (forall c, p c = false -> q c = false) -> noneOf p s -> noneOf q s.
Proof. intros H Hs. induction Hs; constructor; auto. Qed.

Lemma noneOf_rev p s : noneOf p s -> noneOf p (rev s).
Proof.
  induction s as [|c s IH]; intros H; [constructor|].
  apply noneOf_cons in H as [Hc Hs]. cbn. apply noneOf_app. split; [auto|].
  apply noneOf_cons. split; [exact Hc|constructor].
Qed.

(** ** Scanning with [replaceAll] *)

(** Stepping over the rest of a match. *)
Lemma replaceAll_skip m x : forall bol rest,
  replaceAll m bol (length x) (x ++ rest)
  = replaceAll m (match rev x with c :: _ => isLineTerminator c | [] => bol end) 0 rest.
Proof.
  induction x as [|c x IH]; intros bol rest; [reflexivity|].
  cbn [length app replaceAll]. rewrite IH.
  cbn [rev]. destruct (rev x) as [|d r]; reflexivity.
Qed.

Lemma replaceAll_skip_all m x bol : replaceAll m bol (length x) x = [].
Proof.
  rewrite <- (app_nil_r x) at 2. rewrite replaceAll_skip. reflexivity.
Qed.

(** A pattern that can only start at a code unit satisfying [trigger]
    copies a text without such code units. *)
Lemma replaceAll_no_trigger (m : matcher) (trigger : N -> bool) :
  (forall bol c r, trigger c = false -> m bol (c :: r) = None) ->
  forall pre rest bol,
    noneOf trigger pre ->
    replaceAll m bol 0 (pre ++ rest)
    = pre ++ replaceAll m (match rev pre with c :: _ => isLineTerminator c | [] => bol end) 0 rest.
Proof.
  intros Hm pre. induction pre as [|c pre IH]; intros rest bol Hpre; [reflexivity|].
  apply noneOf_cons in Hpre as [Hc Hpre].
  cbn [app replaceAll]. rewrite (Hm bol c (pre ++ rest) Hc).
  rewrite IH by exact Hpre. cbn [rev].
  destruct (rev pre) as [|d r]; reflexivity.
Qed.

Lemma replaceAll_no_trigger_id (m : matcher) (trigger : N -> bool) :
  (forall bol c r, trigger c = false -> m bol (c :: r) = None) ->
  forall s bol, noneOf trigger s -> replaceAll m bol 0 s = s.
Proof.
  intros Hm s bol Hs.
  rewrite <- (app_nil_r s) at 1.
  rewrite (replaceAll_no_trigger m trigger Hm s [] bol Hs). cbn. apply app_nil_r.
Qed.

(** A pattern anchored by [^] does not match inside a line. *)
Lemma replaceAll_anchored (m : matcher) :
  (forall s, m false s = None) ->
  forall s, noneOf isLineTerminator s -> replaceAll m false 0 s = s.
Proof.
  intros Hm s. induction s as [|c s IH]; intros Hs; [reflexivity|].
  apply noneOf_cons in Hs as [Hc Hs].
  cbn [replaceAll]. rewrite Hm, Hc, IH by exact Hs. reflexivity.
Qed.

Lemma replaceRegex_anchored (m : matcher) s :
  (forall s, m false s = None) ->
  noneOf isLineTerminator s ->
  m true s = None ->
  replaceRegex m s = s.
Proof.
  intros Hm Hs H0. unfold replaceRegex.
  destruct s as [|c s]; [reflexivity|].
  apply noneOf_cons in Hs as [Hc Hs].
  cbn [replaceAll]. rewrite H0, Hc, (replaceAll_anchored m Hm s Hs). reflexivity.
Qed.

Lemma headingMatcher_inside s : headingMatcher false s = None.
Proof. reflexivity. Qed.

Lemma blockquoteMatcher_inside s : blockquoteMatcher false s = None.
Proof. reflexivity. Qed.

Lemma inlineCodeMatcher_trigger bol c r :
  (c =? c_backtick) = false -> inlineCodeMatcher bol (c :: r) = None.
Proof. intros H. unfold inlineCodeMatcher. rewrite H. reflexivity. Qed.

Lemma boldMatcher_trigger bol c r :
  (c =? c_star) = false -> boldMatcher bol (c :: r) = None.
Proof.
  intros H. unfold boldMatcher. cbn [startsWith].
  rewrite N.eqb_sym, H. reflexivity.
Qed.

Lemma italicMatcher_trigger bol c r :
  isEmphasisMark c = false -> italicMatcher bol (c :: r) = None.
Proof. intros H. unfold italicMatcher. rewrite H. reflexivity. Qed.

Lemma linkMatcher_trigger bol c r :
  (c =? c_lbracket) = false -> linkMatcher bol (c :: r) = None.
Proof. intros H. unfold linkMatcher. rewrite H. reflexivity. Qed.

(** ** [escapeHtml] *)

Lemma replaceChar_app c rep a b :
  replaceChar c rep (a ++ b) = replaceChar c rep a ++ replaceChar c rep b.
Proof. unfold replaceChar. apply flat_map_app. Qed.

Lemma replaceChar_id c rep s :
  noneOf (N.eqb c) s -> replaceChar c rep s = s.
Proof.
  induction 1 as [|x s Hx Hs IH]; [reflexivity|].
  cbn. rewrite N.eqb_sym, Hx. cbn. f_equal. exact IH.
Qed.

(** A replacement that brings none is the only way for a code unit
    satisfying [p] to appear. *)
Lemma replaceChar_noneOf p c rep s :
  noneOf p rep -> noneOf p s -> noneOf p (replaceChar c rep s).
Proof.
  intros Hrep. induction 1 as [|x s Hx Hs IH]; [constructor|].
  cbn. destruct (x =? c).
  - apply noneOf_app. split; assumption.
  - constructor; assumption.
Qed.

Lemma replaceChar_removes c rep s :
  noneOf (N.eqb c) rep -> noneOf (N.eqb c) (replaceChar c rep s).
Proof.
  intros Hrep. induction s as [|x s IH]; [constructor|].
  cbn. destruct (x =? c) eqn:E.
  - apply noneOf_app. split; assumption.
  - constructor; [rewrite N.eqb_sym; exact E|exact IH].
Qed.

Lemma escapeHtml_app a b : escapeHtml (a ++ b) = escapeHtml a ++ escapeHtml b.
Proof. unfold escapeHtml. rewrite !replaceChar_app. reflexivity. Qed.

Lemma noneOf_literal (p : N -> bool) s : forallb (fun c => negb (p c)) s = true -> noneOf p s.
Proof.
  induction s as [|c s IH]; cbn; intros H; [constructor|].
  apply andb_true_iff in H as [Hc Hs]. apply negb_true_iff in Hc.
  constructor; [exact Hc|exact (IH Hs)].
Qed.

(** The output of [escapeHtml] holds no angle bracket and no quote. *)
Lemma escapeHtml_markup_free s : noneOf isMarkup (escapeHtml s).
Proof.
  assert (Hlt : noneOf (N.eqb c_lt) (escapeHtml s)).
  { unfold escapeHtml. do 2 (apply replaceChar_noneOf; [apply noneOf_literal; reflexivity|]).
    apply replaceChar_noneOf; [apply noneOf_literal; reflexivity|].
    apply replaceChar_removes. apply noneOf_literal; reflexivity. }
  assert (Hgt : noneOf (N.eqb c_gt) (escapeHtml s)).
  { unfold escapeHtml. do 2 (apply replaceChar_noneOf; [apply noneOf_literal; reflexivity|]).
    apply replaceChar_removes. apply noneOf_literal; reflexivity. }
  assert (Hdq : noneOf (N.eqb c_dquote) (escapeHtml s)).
  { unfold escapeHtml. apply replaceChar_noneOf; [apply noneOf_literal; reflexivity|].
    apply replaceChar_removes. apply noneOf_literal; reflexivity. }
  assert (Hsq : noneOf (N.eqb c_squote) (escapeHtml s)).
  { unfold escapeHtml. apply replaceChar_removes. apply noneOf_literal; reflexivity. }
  unfold noneOf in *. rewrite Forall_forall in *.
  intros c Hc. unfold isMarkup.
  rewrite (N.eqb_sym c c_lt), (N.eqb_sym c c_gt), (N.eqb_sym c c_dquote), (N.eqb_sym c c_squote).
  rewrite (Hlt c Hc), (Hgt c Hc), (Hdq c Hc), (Hsq c Hc). reflexivity.
Qed.

(** [escapeHtml] brings in only the code units of its five entities. *)
Lemma escapeHtml_noneOf (p : N -> bool) s :
  noneOf p (lit "&amp;&lt;&gt;&quot;&#39;") -> noneOf p s -> noneOf p (escapeHtml s).
Proof.
  intros He Hs. unfold escapeHtml.
  change (lit "&amp;&lt;&gt;&quot;&#39;")
    with (lit "&amp;" ++ lit "&lt;" ++ lit "&gt;" ++ lit "&quot;" ++ lit "&#39;") in He.
  rewrite !noneOf_app in He. destruct He as (H1 & H2 & H3 & H4 & H5).
  repeat apply replaceChar_noneOf; assumption.
Qed.

Lemma escapeHtml_id s :
  noneOf (fun c => (c =? c_amp) || isMarkup c) s -> escapeHtml s = s.
Proof.
  intros H. unfold escapeHtml.
  assert (Hx : forall x, ((x =? c_amp) || isMarkup x) = true -> noneOf (N.eqb x) s).
  { intros x Hxs. eapply noneOf_weaken; [|exact H].
    intros c Hc. cbn beta in Hc. destruct (x =? c) eqn:E; [|reflexivity].
    apply N.eqb_eq in E. subst c. congruence. }
  rewrite (replaceChar_id c_amp) by (apply Hx; reflexivity).
  rewrite (replaceChar_id c_lt) by (apply Hx; reflexivity).
  rewrite (replaceChar_id c_gt) by (apply Hx; reflexivity).
  rewrite (replaceChar_id c_dquote) by (apply Hx; reflexivity).
  apply replaceChar_id, Hx. reflexivity.
Qed.

(** ** Step 1 on particular inputs *)

Lemma extractCodeBlocks_skip_all s idx : extractCodeBlocks (length s) idx s = ([], []).
Proof. induction s as [|c s IH]; [reflexivity|]. cbn. exact IH. Qed.

Lemma extractCodeBlocks_no_backtick s : forall idx,
  noneOf (fun c => c =? c_backtick) s -> extractCodeBlocks 0 idx s = (s, []).
Proof.
  induction s as [|c s IH]; intros idx H; [reflexivity|].
  apply noneOf_cons in H as [Hc Hs].
  cbn [extractCodeBlocks]. unfold fence. lits. cbn [startsWith].
  rewrite (N.eqb_sym 96 c). change 96 with c_backtick. rewrite Hc. cbn [andb].
  rewrite IH by exact Hs. reflexivity.
Qed.

Lemma indexOf_fence_after code rest :
  noneOf (fun c => c =? c_backtick) code ->
  indexOf fence (code ++ fence ++ rest) = Some (length code).
Proof.
  induction 1 as [|c code Hc Hcode IH]; [reflexivity|].
  cbn [app indexOf length]. unfold fence at 1. lits. cbn [startsWith].
  rewrite (N.eqb_sym 96 c). change 96 with c_backtick. rewrite Hc. cbn [andb].
  rewrite IH. reflexivity.
Qed.

Lemma indexOf_fence_end code :
  noneOf (fun c => c =? c_backtick) code ->
  indexOf fence (code ++ fence) = Some (length code).
Proof.
  intros H. rewrite <- (indexOf_fence_after code [] H), app_nil_r. reflexivity.
Qed.

Lemma extractCodeBlocks_at_fence idx c s k :
  startsWith fence (c :: s) = true ->
  indexOf fence (drop 3 (c :: s)) = Some k ->
  extractCodeBlocks 0 idx (c :: s)
  = (placeholder idx ++ fst (extractCodeBlocks (k + 5) (S idx) s),
     codeBlockHtml (take k (drop 3 (c :: s))) :: snd (extractCodeBlocks (k + 5) (S idx) s)).
Proof.
  intros Hs Hk. cbn [extractCodeBlocks]. rewrite Hs, Hk.
  destruct (extractCodeBlocks (k + 5) (S idx) s). reflexivity.
Qed.

(** An input that is one fenced block. *)
Lemma extractCodeBlocks_one_fence code :
  noneOf (fun c => c =? c_backtick) code ->
  extractCodeBlocks 0 0 (fence ++ code ++ fence) = (placeholder 0, [codeBlockHtml code]).
Proof.
  intros Hcode.
  change (fence ++ code ++ fence) with (c_backtick :: c_backtick :: c_backtick :: code ++ fence).
  rewrite (extractCodeBlocks_at_fence 0 _ _ (length code));
    [|reflexivity|exact (indexOf_fence_end code Hcode)].
  replace (length code + 5)%nat with (length (c_backtick :: c_backtick :: code ++ fence))
    by (cbn [length]; rewrite length_app; change (length fence) with 3%nat; lia).
  rewrite extractCodeBlocks_skip_all. cbn [fst snd].
  change (drop 3 (c_backtick :: c_backtick :: c_backtick :: code ++ fence)) with (code ++ fence).
  rewrite take_app_length, app_nil_r. reflexivity.
Qed.

Lemma extractCodeBlocks_blocks s : forall skip idx,
  Forall (fun block => exists code, block = codeBlockHtml code)
    (snd (extractCodeBlocks skip idx s)).
Proof.
  induction s as [|c s IH]; intros skip idx; [constructor|].
  cbn [extractCodeBlocks].
  destruct skip as [|k]; [|apply IH].
  destruct (startsWith fence (c :: s)).
  - destruct (indexOf fence (drop 3 (c :: s))) as [k|].
    + specialize (IH (k + 5)%nat (S idx)).
      destruct (extractCodeBlocks (k + 5) (S idx) s). cbn [snd] in *.
      constructor; [eexists; reflexivity|exact IH].
    + specialize (IH 0%nat idx). destruct (extractCodeBlocks 0 idx s). exact IH.
  - specialize (IH 0%nat idx). destruct (extractCodeBlocks 0 idx s). exact IH.
Qed.

(** ** The replacement text of step 11 *)

Lemma getSubstitution_prefix matched before after pre r :
  noneOf (fun c => c =? c_dollar) pre ->
  getSubstitution matched before after (pre ++ r)
  = pre ++ getSubstitution matched before after r.
Proof.
  induction 1 as [|c pre Hc Hpre IH]; [reflexivity|].
  cbn [app getSubstitution]. rewrite Hc, IH. reflexivity.
Qed.

Lemma getSubstitution_no_dollar matched before after r :
  noneOf (fun c => c =? c_dollar) r ->
  getSubstitution matched before after r = r.
Proof.
  intros H. rewrite <- (app_nil_r r) at 1.
  rewrite getSubstitution_prefix by exact H. apply app_nil_r.
Qed.

(** What follows the replacement text is copied when it cannot complete a
    dollar pattern. *)
Lemma getSubstitution_suffix matched before after z tail :
  (z =? c_dollar) = false -> (z =? c_amp) = false ->
  (z =? c_backtick) = false -> (z =? c_squote) = false ->
  noneOf (fun c => c =? c_dollar) tail ->
  forall n r, (length r <= n)%nat ->
    getSubstitution matched before after (r ++ z :: tail)
    = getSubstitution matched before after r ++ z :: tail.
Proof.
  intros Hz1 Hz2 Hz3 Hz4 Htail.
  assert (Hend : getSubstitution matched before after (z :: tail) = z :: tail).
  { apply getSubstitution_no_dollar. constructor; assumption. }
  induction n as [|n IH]; intros r Hlen.
  - destruct r; [exact Hend|cbn in Hlen; lia].
  - destruct r as [|c r]; [exact Hend|].
    cbn [app getSubstitution].
    destruct (c =? c_dollar) eqn:Hc.
    + destruct r as [|d r].
      * cbn [app]. rewrite Hz1, Hz2, Hz3, Hz4, Hend. reflexivity.
      * cbn [app length] in *.
        destruct (d =? c_dollar); [rewrite IH by lia; reflexivity|].
        destruct (d =? c_amp); [rewrite IH by lia; rewrite app_assoc; reflexivity|].
        destruct (d =? c_backtick); [rewrite IH by lia; rewrite app_assoc; reflexivity|].
        destruct (d =? c_squote); [rewrite IH by lia; rewrite app_assoc; reflexivity|].
        change (d :: r ++ z :: tail) with ((d :: r) ++ z :: tail).
        rewrite (IH (d :: r)) by (cbn; lia). reflexivity.
    + cbn [length] in Hlen. rewrite IH by lia. reflexivity.
Qed.

(** A replacement text without backtick and quote brings in the matched
    text and nothing else. *)
Lemma getSubstitution_noneOf (p : N -> bool) matched before after :
  p c_dollar = false ->
  noneOf p matched ->
  forall n r, (length r <= n)%nat ->
    noneOf p r ->
    noneOf (fun c => (c =? c_backtick) || (c =? c_squote)) r ->
    noneOf p (getSubstitution matched before after r).
Proof.
  intros Hd Hm. induction n as [|n IH]; intros r Hlen Hr Hq.
  - destruct r; [constructor|cbn in Hlen; lia].
  - destruct r as [|c r]; [constructor|].
    apply noneOf_cons in Hr as [Hc Hr]. apply noneOf_cons in Hq as [Hqc Hq].
    cbn [length] in Hlen. cbn [getSubstitution].
    destruct (c =? c_dollar).
    + destruct r as [|d r]; [constructor; [exact Hc|constructor]|].
      apply noneOf_cons in Hr as [Hdp Hr]. apply noneOf_cons in Hq as [Hqd Hq].
      apply orb_false_iff in Hqd as [Hq1 Hq2]. cbn [length] in Hlen.
      destruct (d =? c_dollar); [constructor; [exact Hd|apply IH; [lia|assumption..]]|].
      destruct (d =? c_amp); [apply noneOf_app; split; [exact Hm|apply IH; [lia|assumption..]]|].
      rewrite Hq1, Hq2.
      constructor; [exact Hc|].
      apply IH; [cbn; lia|constructor; assumption|constructor; [|assumption]].
      rewrite Hq1, Hq2. reflexivity.
    + constructor; [exact Hc|apply IH; [lia|assumption..]].
Qed.

Lemma noneOf_drop p n s : noneOf p s -> noneOf p (drop n s).
Proof.
  revert n. induction s as [|c s IH]; intros [|n] H; cbn; try assumption.
  apply noneOf_cons in H as [_ H]. apply IH, H.
Qed.

Lemma noneOf_trimEnd p s : noneOf p s -> noneOf p (trimEnd s).
Proof.
  intros H. unfold trimEnd, trimStart. apply noneOf_rev, noneOf_drop, noneOf_rev, H.
Qed.

(** ** A fenced block inside a text *)

Lemma extractCodeBlocks_skip x : forall idx rest,
  extractCodeBlocks (length x) idx (x ++ rest) = extractCodeBlocks 0 idx rest.
Proof. induction x as [|c x IH]; intros idx rest; [reflexivity|]. cbn. apply IH. Qed.

Lemma extractCodeBlocks_before pre : forall idx rest,
  noneOf (fun c => c =? c_backtick) pre ->
  extractCodeBlocks 0 idx (pre ++ rest)
  = (pre ++ fst (extractCodeBlocks 0 idx rest), snd (extractCodeBlocks 0 idx rest)).
Proof.
  induction pre as [|c pre IH]; intros idx rest H.
  - cbn [app]. destruct (extractCodeBlocks 0 idx rest). reflexivity.
  - apply noneOf_cons in H as [Hc Hpre].
    cbn [app extractCodeBlocks].
    replace (startsWith fence (c :: pre ++ rest)) with false.
    + rewrite IH by exact Hpre. reflexivity.
    + unfold fence. lits. cbn [startsWith].
      rewrite (N.eqb_sym 96 c). change 96 with c_backtick. rewrite Hc. reflexivity.
Qed.

(** Step 1 on a text with a fenced block in it: the text leaves with the
    placeholder where the block was, and the block with its content
    escaped. *)
Lemma extractCodeBlocks_fenced pre code post :
  noneOf (fun c => c =? c_backtick) pre ->
  noneOf (fun c => c =? c_backtick) code ->
  extractCodeBlocks 0 0 (pre ++ fence ++ code ++ fence ++ post)
  = (pre ++ placeholder 0 ++ fst (extractCodeBlocks 0 1 post),
     codeBlockHtml code :: snd (extractCodeBlocks 0 1 post)).
Proof.
  intros Hpre Hcode.
  rewrite extractCodeBlocks_before by exact Hpre.
  change (fence ++ code ++ fence ++ post)
    with (c_backtick :: c_backtick :: c_backtick :: code ++ fence ++ post).
  rewrite (extractCodeBlocks_at_fence 0 _ _ (length code));
    [|reflexivity|exact (indexOf_fence_after code post Hcode)].
  change (drop 3 (c_backtick :: c_backtick :: c_backtick :: code ++ fence ++ post))
    with (code ++ fence ++ post).
  rewrite take_app_length.
  replace (c_backtick :: c_backtick :: code ++ fence ++ post)
    with ((c_backtick :: c_backtick :: code ++ fence) ++ post)
    by (cbn [app]; rewrite <- app_assoc; reflexivity).
  replace (length code + 5)%nat with (length (c_backtick :: c_backtick :: code ++ fence))
    by (cbn [length]; rewrite length_app; change (length fence) with 3%nat; lia).
  rewrite extractCodeBlocks_skip. reflexivity.
Qed.

(** ** Fenced code is shown escaped *)

Lemma formatText_one_placeholder :
  formatText (escapeHtml (placeholder 0)) = lit "<p>" ++ placeholder 0 ++ lit "</p>".
Proof. vm_compute. reflexivity. Qed.

Lemma restore_one_placeholder block :
  restoreCodeBlocks 0 [block] (lit "<p>" ++ placeholder 0 ++ lit "</p>")
  = lit "<p>" ++ getSubstitution (placeholder 0) (lit "<p>") (lit "</p>") block ++ lit "</p>".
Proof. reflexivity. Qed.

(** X4.  Every code unit of the input is escaped before anything is made
    of it.  Whatever the input, each block taken out by step 1 is
    [<pre><code>], the escaped content, [</code></pre>]; the text handed
    to the other steps holds no angle bracket and no quote of its own;
    and the blocks are put back only by the last step.  In a text with a
    fenced block in it (no backtick before the block nor in its
    content), step 1 leaves the placeholder where the block was and
    keeps the content, escaped, as block 0.  For an input that is one
    fenced block, the output is the block inside a paragraph, and what
    stands between [<pre><code>] and [</code></pre>] holds no angle
    bracket and no quote: it is the escaped content (exactly so when
    the content has no dollar sign). *)
Theorem fenced_code_is_escaped :
  (forall md,
      Forall (fun block =>
                exists code,
                  block = lit "<pre><code>" ++ escapeHtml (trimEnd code) ++ lit "</code></pre>"
                  /\ noneOf isMarkup (escapeHtml (trimEnd code)))
        (snd (extractCodeBlocks 0 0 md))
      /\ noneOf isMarkup (escapeHtml (fst (extractCodeBlocks 0 0 md)))
      /\ renderMarkdown md
         = restoreCodeBlocks 0 (snd (extractCodeBlocks 0 0 md))
             (formatText (escapeHtml (fst (extractCodeBlocks 0 0 md)))))
  /\ (forall pre code post,
        noneOf (fun c => c =? c_backtick) pre ->
        noneOf (fun c => c =? c_backtick) code ->
        fst (extractCodeBlocks 0 0 (pre ++ fence ++ code ++ fence ++ post))
        = pre ++ placeholder 0 ++ fst (extractCodeBlocks 0 1 post)
        /\ snd (extractCodeBlocks 0 0 (pre ++ fence ++ code ++ fence ++ post))
           = (lit "<pre><code>" ++ escapeHtml (trimEnd code) ++ lit "</code></pre>")
               :: snd (extractCodeBlocks 0 1 post))
  /\ (forall code,
        noneOf (fun c => c =? c_backtick) code ->
        exists shown,
          renderMarkdown (fence ++ code ++ fence)
          = lit "<p><pre><code>" ++ shown ++ lit "</code></pre></p>"
          /\ noneOf isMarkup shown
          /\ (noneOf (fun c => c =? c_dollar) code -> shown = escapeHtml (trimEnd code))).
Proof.
  split; [|split].
  - intros md. repeat split.
    + eapply Forall_impl; [apply extractCodeBlocks_blocks|].
      intros block [code ->]. exists code. split; [reflexivity|apply escapeHtml_markup_free].
    + apply escapeHtml_markup_free.
    + unfold renderMarkdown. destruct (extractCodeBlocks 0 0 md). reflexivity.
  - intros pre code post Hpre Hcode.
    rewrite (extractCodeBlocks_fenced pre code post Hpre Hcode). split; reflexivity.
  - intros code Hcode.
    exists (getSubstitution (placeholder 0) (lit "<p>") (lit "</p>") (escapeHtml (trimEnd code))).
    assert (Hbt : noneOf (fun c => c =? c_backtick) (escapeHtml (trimEnd code))).
    { apply escapeHtml_noneOf; [apply noneOf_literal; reflexivity|].
      apply noneOf_trimEnd, Hcode. }
    repeat split.
    + unfold renderMarkdown. rewrite (extractCodeBlocks_one_fence code Hcode).
      rewrite formatText_one_placeholder, restore_one_placeholder.
      unfold codeBlockHtml.
      rewrite getSubstitution_prefix by (apply noneOf_literal; reflexivity).
      change (lit "</code></pre>") with (c_lt :: lit "/code></pre>").
      rewrite (getSubstitution_suffix _ _ _ c_lt (lit "/code></pre>"))
        with (n := length (escapeHtml (trimEnd code)));
        [|reflexivity..|apply noneOf_literal; reflexivity|lia].
      change (lit "<p><pre><code>") with (lit "<p>" ++ lit "<pre><code>").
      change (lit "</code></pre></p>") with ((c_lt :: lit "/code></pre>") ++ lit "</p>").
      rewrite <- !app_assoc. reflexivity.
    + apply getSubstitution_noneOf with (n := length (escapeHtml (trimEnd code)));
        [reflexivity|apply noneOf_literal; reflexivity|lia|apply escapeHtml_markup_free|].
      pose proof (escapeHtml_markup_free (trimEnd code)) as Hm.
      unfold noneOf in *. rewrite Forall_forall in *.
      intros c Hc. rewrite (Hbt c Hc). specialize (Hm c Hc).
      unfold isMarkup in Hm. rewrite !orb_false_iff in Hm. destruct Hm as (_ & Hsq).
      exact Hsq.
    + intros Hdollar. apply getSubstitution_no_dollar.
      apply escapeHtml_noneOf; [apply noneOf_literal; reflexivity|].
      apply noneOf_trimEnd, Hdollar.
Qed.

(** ** Plain text *)

Lemma isSpecial_false c :
  isSpecial c = false ->
  isLineTerminator c = false /\ (c =? c_amp) = false /\ isMarkup c = false
  /\ (c =? c_backtick) = false /\ (c =? c_star) = false
  /\ (c =? c_underscore) = false /\ (c =? c_lbracket) = false.
Proof. unfold isSpecial. rewrite !orb_false_iff. tauto. Qed.

Lemma plain_no_lineTerminator s : noneOf isSpecial s -> noneOf isLineTerminator s.
Proof. apply noneOf_weaken. intros c H. apply isSpecial_false in H. tauto. Qed.

Lemma plain_no_lf s : noneOf isSpecial s -> noneOf (N.eqb c_lf) s.
Proof.
  apply noneOf_weaken. intros c H. apply isSpecial_false in H as (H & _).
  unfold isLineTerminator in H. rewrite !orb_false_iff in H.
  rewrite N.eqb_sym. tauto.
Qed.

Lemma plain_no_escape s :
  noneOf isSpecial s -> noneOf (fun c => (c =? c_amp) || isMarkup c) s.
Proof.
  apply noneOf_weaken. intros c H. apply isSpecial_false in H as (_ & H1 & H2 & _).
  rewrite H1, H2. reflexivity.
Qed.

Lemma plain_no_backtick s : noneOf isSpecial s -> noneOf (fun c => c =? c_backtick) s.
Proof. apply noneOf_weaken. intros c H. apply isSpecial_false in H. tauto. Qed.

Lemma plain_no_star s : noneOf isSpecial s -> noneOf (fun c => c =? c_star) s.
Proof. apply noneOf_weaken. intros c H. apply isSpecial_false in H. tauto. Qed.

Lemma plain_no_emphasis s : noneOf isSpecial s -> noneOf isEmphasisMark s.
Proof.
  apply noneOf_weaken. intros c H. apply isSpecial_false in H as (_ & _ & _ & _ & H1 & H2 & _).
  unfold isEmphasisMark. rewrite H1, H2. reflexivity.
Qed.

Lemma plain_no_bracket s : noneOf isSpecial s -> noneOf (fun c => c =? c_lbracket) s.
Proof. apply noneOf_weaken. intros c H. apply isSpecial_false in H. tauto. Qed.

(** ** Spans *)

Lemma spanLen_all p s rest :
  noneOf (fun c => negb (p c)) s ->
  match rest with c :: _ => p c = false | [] => True end ->
  spanLen p (s ++ rest) = length s.
Proof.
  intros Hs Hrest. induction Hs as [|c s Hc Hs IH].
  - destruct rest as [|c r]; [reflexivity|]. cbn. rewrite Hrest. reflexivity.
  - cbn. apply negb_false_iff in Hc. rewrite Hc, IH. reflexivity.
Qed.

Lemma noneOf_negb (p : N -> bool) s : noneOf p s -> noneOf (fun c => negb (negb (p c))) s.
Proof. apply noneOf_weaken. intros c H. rewrite H. reflexivity. Qed.

(** ** Bold *)

Lemma boldClose_plain a rest :
  noneOf isSpecial a ->
  startsWith [c_star; c_star] rest = false ->
  boldClose (a ++ rest) = option_map (Nat.add (length a)) (boldClose rest).
Proof.
  intros Ha Hrest. induction Ha as [|c a Hc Ha IH].
  - cbn. destruct (boldClose rest); reflexivity.
  - apply isSpecial_false in Hc as (Hlt & _ & _ & _ & Hstar & _).
    cbn [app boldClose length]. rewrite Hlt.
    assert (Hnext : startsWith [c_star; c_star] (a ++ rest) = false).
    { destruct Ha as [|d a Hd Ha]; [exact Hrest|].
      apply isSpecial_false in Hd as (_ & _ & _ & _ & Hd & _).
      cbn [app startsWith]. rewrite N.eqb_sym, Hd. reflexivity. }
    rewrite Hnext, IH. destruct (boldClose rest); reflexivity.
Qed.

Lemma boldClose_end c :
  c <> [] -> noneOf isSpecial c ->
  boldClose (c ++ [c_star; c_star]) = Some (length c).
Proof.
  intros Hne Hc. induction Hc as [|x c Hx Hc IH]; [congruence|].
  apply isSpecial_false in Hx as (Hlt & _ & _ & _ & Hstar & _).
  cbn [app boldClose length]. rewrite Hlt.
  destruct Hc as [|y c Hy Hc].
  - reflexivity.
  - apply isSpecial_false in Hy as (_ & _ & _ & _ & Hy & _).
    cbn [app startsWith]. rewrite N.eqb_sym, Hy. cbn [andb].
    cbn [app] in IH. rewrite IH by congruence. reflexivity.
Qed.

Lemma startsWith_star_plain b rest :
  b <> [] -> noneOf isSpecial b -> startsWith [c_star; c_star] (c_star :: b ++ rest) = false.
Proof.
  intros Hne Hb. destruct Hb as [|y b Hy Hb]; [congruence|].
  apply isSpecial_false in Hy as (_ & _ & _ & _ & Hy & _).
  cbn [app startsWith]. rewrite (N.eqb_sym c_star y), Hy, N.eqb_refl. reflexivity.
Qed.

Lemma startsWith_plain b rest :
  b <> [] -> noneOf isSpecial b -> startsWith [c_star; c_star] (b ++ rest) = false.
Proof.
  intros Hne Hb. destruct Hb as [|y b Hy Hb]; [congruence|].
  apply isSpecial_false in Hy as (_ & _ & _ & _ & Hy & _).
  cbn [app startsWith]. rewrite N.eqb_sym, Hy. reflexivity.
Qed.

Lemma boldClose_star rest :
  startsWith [c_star; c_star] rest = false ->
  boldClose (c_star :: rest) = option_map S (boldClose rest).
Proof. intros H. cbn [boldClose]. rewrite H. reflexivity. Qed.

(** The lazy group of the bold pattern on [a*b*c] followed by two stars. *)
Lemma boldClose_nested a b c :
  noneOf isSpecial a -> noneOf isSpecial b -> noneOf isSpecial c ->
  b <> [] -> c <> [] ->
  boldClose ((a ++ c_star :: b ++ c_star :: c) ++ [c_star; c_star])
  = Some (length (a ++ c_star :: b ++ c_star :: c)).
Proof.
  intros Ha Hb Hc Hbne Hcne.
  rewrite <- app_assoc. cbn [app]. rewrite <- app_assoc. cbn [app].
  rewrite boldClose_plain; [|exact Ha|apply startsWith_star_plain; assumption].
  rewrite boldClose_star by (apply startsWith_plain; assumption).
  rewrite boldClose_plain; [|exact Hb|apply startsWith_star_plain; assumption].
  rewrite boldClose_star by (apply startsWith_plain; assumption).
  rewrite boldClose_end by assumption.
  cbn [option_map]. f_equal. rewrite !length_app. cbn [length]. rewrite length_app. cbn [length]. lia.
Qed.

Lemma replaceAll_match m bol c s rep n :
  m bol (c :: s) = Some (rep, n) ->
  replaceAll m bol 0 (c :: s) = rep ++ replaceAll m (isLineTerminator c) (Nat.pred n) s.
Proof. intros H. cbn [replaceAll]. rewrite H. reflexivity. Qed.

Lemma boldMatcher_span bol x :
  boldClose (x ++ [c_star; c_star]) = Some (length x) ->
  boldMatcher bol (c_star :: c_star :: x ++ [c_star; c_star])
  = Some (lit "<strong>" ++ x ++ lit "</strong>", (length x + 4)%nat).
Proof.
  intros H. unfold boldMatcher.
  change (startsWith [c_star; c_star] (c_star :: c_star :: x ++ [c_star; c_star])) with true.
  change (drop 2 (c_star :: c_star :: x ++ [c_star; c_star])) with (x ++ [c_star; c_star]).
  cbv iota. rewrite H, take_app_length. reflexivity.
Qed.

Lemma replaceRegex_bold x :
  boldClose (x ++ [c_star; c_star]) = Some (length x) ->
  replaceRegex boldMatcher (c_star :: c_star :: x ++ [c_star; c_star])
  = lit "<strong>" ++ x ++ lit "</strong>".
Proof.
  intros H. unfold replaceRegex.
  rewrite (replaceAll_match _ _ _ _ _ _ (boldMatcher_span true x H)).
  replace (Nat.pred (length x + 4)) with (length (c_star :: x ++ [c_star; c_star]))
    by (cbn [length]; rewrite length_app; cbn [length]; lia).
  rewrite replaceAll_skip_all, app_nil_r. reflexivity.
Qed.

(** ** Italics *)

Lemma italicMatcher_span bol b rest :
  b <> [] -> noneOf isEmphasisMark b ->
  italicMatcher bol (c_star :: b ++ c_star :: rest)
  = Some (lit "<em>" ++ b ++ lit "</em>", (length b + 2)%nat).
Proof.
  intros Hne Hb. unfold italicMatcher.
  change (isEmphasisMark c_star) with true. cbv iota zeta.
  rewrite (spanLen_all _ b (c_star :: rest))
    by first [apply noneOf_negb; exact Hb | reflexivity].
  rewrite take_app_length.
  destruct b as [|y b]; [congruence|]. cbn [length].
  change (drop (S (length b)) ((y :: b) ++ c_star :: rest))
    with (drop (length b) (b ++ c_star :: rest)).
  rewrite drop_app_length. change (c_star =? c_star) with true. reflexivity.
Qed.

(** ** Paragraphs *)

Lemma splitParagraphs_no_lf s :
  noneOf (N.eqb c_lf) s -> splitParagraphs 0 s = [s].
Proof.
  induction 1 as [|c s Hc Hs IH]; [reflexivity|].
  cbn [splitParagraphs spanLen]. rewrite Hc. cbn [Nat.leb]. rewrite IH. reflexivity.
Qed.

Lemma trim_id x mid y :
  isWhiteSpace x = false -> isWhiteSpace y = false ->
  trim (x :: mid ++ [y]) = x :: mid ++ [y].
Proof.
  intros Hx Hy. unfold trim, trimEnd.
  assert (Hs : forall z r, isWhiteSpace z = false -> trimStart (z :: r) = z :: r).
  { intros z r Hz. unfold trimStart. cbn [spanLen]. rewrite Hz. reflexivity. }
  rewrite (Hs x) by exact Hx.
  change (x :: mid ++ [y]) with ((x :: mid) ++ [y]) at 1.
  rewrite rev_app_distr. cbn [rev app]. rewrite (Hs y) by exact Hy.
  change (y :: rev mid ++ [x]) with (rev [y] ++ rev (x :: mid)).
  rewrite <- rev_app_distr, rev_involutive. reflexivity.
Qed.

(** Literals spelled out and concatenations associated to the right. *)
Ltac list_norm :=
  lits; repeat (progress (rewrite <- ?app_assoc; cbn [app])).

Ltac noneOf_parts :=
  repeat first
    [ assumption
    | apply noneOf_nil
    | apply noneOf_app; split
    | apply noneOf_cons; split; [reflexivity|]
    | apply noneOf_literal; reflexivity ].

(** ** Bold around italics *)

(** X5.  For texts [a], [b] and [c] without line terminators and without
    ampersand, angle bracket, quote, backtick, star, underscore or opening
    square bracket, [b] and [c] not empty, the input [**a*b*c**] is
    rendered as one paragraph holding one [strong] element around [a],
    an [em] element around [b], and [c]: bold is applied first and the
    italic span lies inside it. *)
Theorem bold_wraps_nested_italic (a b c : jstring) :
  noneOf isSpecial a -> noneOf isSpecial b -> noneOf isSpecial c ->
  b <> [] -> c <> [] ->
  renderMarkdown (lit "**" ++ a ++ lit "*" ++ b ++ lit "*" ++ c ++ lit "**")
  = lit "<p><strong>" ++ a ++ lit "<em>" ++ b ++ lit "</em>" ++ c ++ lit "</strong></p>".
Proof.
  intros Ha Hb Hc Hbne Hcne.
  pose proof (plain_no_lineTerminator _ Ha). pose proof (plain_no_lineTerminator _ Hb).
  pose proof (plain_no_lineTerminator _ Hc).
  pose proof (plain_no_escape _ Ha). pose proof (plain_no_escape _ Hb).
  pose proof (plain_no_escape _ Hc).
  pose proof (plain_no_backtick _ Ha). pose proof (plain_no_backtick _ Hb).
  pose proof (plain_no_backtick _ Hc).
  pose proof (plain_no_emphasis _ Ha). pose proof (plain_no_emphasis _ Hb).
  pose proof (plain_no_emphasis _ Hc).
  pose proof (plain_no_bracket _ Ha). pose proof (plain_no_bracket _ Hb).
  pose proof (plain_no_bracket _ Hc).
  pose proof (plain_no_lf _ Ha). pose proof (plain_no_lf _ Hb). pose proof (plain_no_lf _ Hc).
  set (x := a ++ c_star :: b ++ c_star :: c).
  assert (Hmd : lit "**" ++ a ++ lit "*" ++ b ++ lit "*" ++ c ++ lit "**"
                = c_star :: c_star :: x ++ [c_star; c_star]).
  { subst x. lits. cbn [app]. rewrite <- !app_assoc. cbn [app]. rewrite <- !app_assoc.
    reflexivity. }
  rewrite Hmd. clear Hmd.
  assert (Hx : forall p, p c_star = false -> noneOf p a -> noneOf p b -> noneOf p c ->
                         noneOf p (c_star :: c_star :: x ++ [c_star; c_star])).
  { intros p Hp Hpa Hpb Hpc. subst x.
    repeat first [assumption | apply noneOf_nil | apply noneOf_app; split
                 | apply noneOf_cons; split; [exact Hp|]]. }
  unfold renderMarkdown.
  rewrite extractCodeBlocks_no_backtick by (apply Hx; [reflexivity|assumption..]).
  rewrite escapeHtml_id by (apply Hx; [reflexivity|assumption..]).
  cbn [restoreCodeBlocks]. unfold formatText.
  rewrite (replaceRegex_anchored headingMatcher);
    [|reflexivity|apply Hx; [reflexivity|assumption..]|reflexivity].
  rewrite (replaceRegex_anchored blockquoteMatcher);
    [|reflexivity|apply Hx; [reflexivity|assumption..]|reflexivity].
  rewrite (replaceRegex_anchored orderedListMatcher);
    [|reflexivity|apply Hx; [reflexivity|assumption..]|reflexivity].
  rewrite (replaceRegex_anchored unorderedListMatcher);
    [|reflexivity|apply Hx; [reflexivity|assumption..]|reflexivity].
  unfold replaceRegex at 4.
  rewrite (replaceAll_no_trigger_id inlineCodeMatcher (fun c => c =? c_backtick))
    by first [exact inlineCodeMatcher_trigger | apply Hx; [reflexivity|assumption..]].
  rewrite replaceRegex_bold by (subst x; apply boldClose_nested; assumption).
  (* italics *)
  subst x. unfold replaceRegex at 2.
  replace (lit "<strong>" ++ (a ++ c_star :: b ++ c_star :: c) ++ lit "</strong>")
    with ((lit "<strong>" ++ a) ++ c_star :: b ++ c_star :: c ++ lit "</strong>")
    by (rewrite <- !app_assoc; cbn [app]; rewrite <- !app_assoc; reflexivity).
  rewrite (replaceAll_no_trigger italicMatcher isEmphasisMark italicMatcher_trigger)
    by noneOf_parts.
  rewrite (replaceAll_match _ _ _ _ _ _
             (italicMatcher_span _ b (c ++ lit "</strong>") Hbne ltac:(assumption))).
  replace (Nat.pred (length b + 2)) with (length (b ++ [c_star]))
    by (rewrite length_app; cbn [length]; lia).
  replace (b ++ c_star :: c ++ lit "</strong>") with ((b ++ [c_star]) ++ c ++ lit "</strong>")
    by (rewrite <- app_assoc; reflexivity).
  rewrite replaceAll_skip.
  rewrite (replaceAll_no_trigger_id italicMatcher isEmphasisMark italicMatcher_trigger)
    by noneOf_parts.
  (* links *)
  unfold replaceRegex.
  rewrite (replaceAll_no_trigger_id linkMatcher (fun c => c =? c_lbracket) linkMatcher_trigger)
    by noneOf_parts.
  (* paragraphs *)
  unfold wrapParagraphs.
  rewrite splitParagraphs_no_lf by noneOf_parts.
  cbn [List.map concat]. rewrite app_nil_r.
  unfold renderParagraph.
  replace ((lit "<strong>" ++ a) ++ (lit "<em>" ++ b ++ lit "</em>") ++ c ++ lit "</strong>")
    with (c_lt :: (lit "strong>" ++ a ++ lit "<em>" ++ b ++ lit "</em>" ++ c ++ lit "</strong")
                 ++ [c_gt])
    by (list_norm; reflexivity).
  rewrite trim_id by reflexivity.
  change (isBlockElement (c_lt :: (lit "strong>" ++ a ++ lit "<em>" ++ b ++ lit "</em>"
                                     ++ c ++ lit "</strong") ++ [c_gt])) with false.
  list_norm. reflexivity.
Qed.

Lemma bold_wraps_nested_italic_witness :
  renderMarkdown (lit "**" ++ lit "a " ++ lit "*" ++ lit "b" ++ lit "*" ++ lit " c" ++ lit "**")
  = lit "<p><strong>" ++ lit "a " ++ lit "<em>" ++ lit "b" ++ lit "</em>" ++ lit " c"
      ++ lit "</strong></p>".
Proof.
  apply (bold_wraps_nested_italic (lit "a ") (lit "b") (lit " c"));
    first [apply noneOf_literal; reflexivity | discriminate].
Defined.

Lemma fenced_code_is_escaped_witness :
  exists shown,
    renderMarkdown (fence ++ lit "<img src=x onerror=alert(1)>" ++ fence)
    = lit "<p><pre><code>" ++ shown ++ lit "</code></pre></p>"
    /\ noneOf isMarkup shown
    /\ (noneOf (fun c => c =? c_dollar) (lit "<img src=x onerror=alert(1)>") ->
        shown = escapeHtml (trimEnd (lit "<img src=x onerror=alert(1)>"))).
Proof.
  apply (proj2 (proj2 fenced_code_is_escaped) (lit "<img src=x onerror=alert(1)>")).
  apply noneOf_literal. reflexivity.
Defined.

(** ** Numbered lists *)

Lemma isDigit_range c : isDigit c = true -> 48 <= c <= 57.
Proof.
  unfold isDigit. rewrite andb_true_iff, !N.leb_le. tauto.
Qed.

Lemma isDigit_not_special c :
  isDigit c = true ->
  isSpecial c = false /\ isWhiteSpace c = false /\ (c =? c_hash) = false
  /\ (c =? c_gt) = false /\ (c =? c_lf) = false.
Proof.
  intros H. apply isDigit_range in H.
  unfold isSpecial, isWhiteSpace, isLineTerminator, isMarkup, c_amp, c_lt, c_gt, c_dquote,
    c_squote, c_backtick, c_star, c_underscore, c_lbracket, c_hash, c_lf.
  rewrite !orb_false_iff, !andb_false_iff, !N.eqb_neq, !N.leb_gt.
  repeat split; try lia; right; lia.
Qed.

Lemma numeral_noneOf (p : N -> bool) d :
  (forall c, isDigit c = true -> p c = false) ->
  noneOf (fun c => negb (isDigit c)) d -> noneOf p d.
Proof.
  intros Hp. apply noneOf_weaken. intros c H. apply Hp. apply negb_false_iff, H.
Qed.

Lemma numeral_plain d : noneOf (fun c => negb (isDigit c)) d -> noneOf isSpecial d.
Proof. apply numeral_noneOf. intros c H. apply isDigit_not_special in H. tauto. Qed.

Lemma listLine_plain item :
  noneOf (fun c => negb (isDigit c)) (fst item) -> noneOf isSpecial (snd item) ->
  noneOf isSpecial (listLine item).
Proof.
  intros Hd Ht. unfold listLine. apply noneOf_app. split; [apply numeral_plain, Hd|].
  apply noneOf_app. split; [apply noneOf_literal; reflexivity|exact Ht].
Qed.

Lemma joinLines_cons l rest :
  rest <> [] -> joinLines (l :: rest) = l ++ c_lf :: joinLines rest.
Proof. destruct rest; [congruence|reflexivity]. Qed.

Lemma joinLines_noneOf (p : N -> bool) lines :
  p c_lf = false -> Forall (noneOf p) lines -> noneOf p (joinLines lines).
Proof.
  intros Hlf H. induction H as [|l rest Hl Hrest IH]; [constructor|].
  destruct rest as [|l2 rest]; [exact Hl|].
  rewrite joinLines_cons by discriminate.
  apply noneOf_app. split; [exact Hl|]. constructor; [exact Hlf|exact IH].
Qed.

(** *** One round of the list pattern on a list line *)

Lemma drop_app_exact (x y : jstring) n : n = length x -> drop n (x ++ y) = y.
Proof. intros ->. apply drop_app_length. Qed.

Lemma startsSolid_spanLen t rest : startsSolid t -> spanLen isWhiteSpace (t ++ rest) = 0%nat.
Proof. destruct t as [|c t]; [intros []|]. cbn. intros ->. reflexivity. Qed.

Lemma orderedMarker_numeral d rest :
  isNumeral d -> orderedMarker (d ++ c_dot :: rest) = Some (S (length d)).
Proof.
  intros [Hne Hd]. unfold orderedMarker.
  rewrite (spanLen_all isDigit d (c_dot :: rest)) by first [exact Hd|reflexivity].
  destruct d as [|c d]; [congruence|]. cbn [length].
  change (drop (S (length d)) ((c :: d) ++ c_dot :: rest))
    with (drop (length d) (d ++ c_dot :: rest)).
  rewrite drop_app_length. reflexivity.
Qed.

Lemma numeral_spanLen_ws d rest : isNumeral d -> spanLen isWhiteSpace (d ++ rest) = 0%nat.
Proof.
  intros [Hne Hd]. destruct d as [|c d]; [congruence|].
  apply noneOf_cons in Hd as [Hc _]. apply negb_false_iff in Hc.
  apply isDigit_not_special in Hc as (_ & Hws & _). cbn. rewrite Hws. reflexivity.
Qed.

Lemma spaceThenText_item t tail :
  isItemText t ->
  match tail with c :: _ => isLineTerminator c = true | [] => True end ->
  spaceThenText (c_space :: t ++ tail) = Some (1%nat, length t).
Proof.
  intros (Hplain & Hhead & _) Htail. unfold spaceThenText.
  cbn [spanLen]. change (isWhiteSpace c_space) with true. cbv iota.
  rewrite (startsSolid_spanLen t tail Hhead). cbn [drop].
  destruct t as [|x t]; [destruct Hhead|]. cbn [app].
  f_equal. f_equal.
  change (x :: t ++ tail) with ((x :: t) ++ tail).
  apply spanLen_all.
  - eapply noneOf_weaken; [|exact (plain_no_lineTerminator _ Hplain)].
    intros c Hc. unfold isDot. rewrite Hc. reflexivity.
  - destruct tail as [|c tail]; [exact I|]. unfold isDot. rewrite Htail. reflexivity.
Qed.

Lemma listItemLen_line item tail :
  isNumeral (fst item) -> isItemText (snd item) ->
  match tail with c :: _ => c = c_lf | [] => True end ->
  listItemLen orderedMarker (listLine item ++ tail)
  = Some (length (listLine item) + match tail with _ :: _ => 1 | [] => 0 end)%nat.
Proof.
  intros Hd Ht Htail. destruct item as [d t]. cbn [fst snd] in *.
  unfold listItemLen, listLine. cbn [fst snd].
  change (lit ". ") with [c_dot; c_space].
  rewrite <- !app_assoc. cbn [app].
  rewrite (numeral_spanLen_ws d _ Hd). cbn [Nat.add].
  change (drop 0 (d ++ c_dot :: c_space :: t ++ tail)) with (d ++ c_dot :: c_space :: t ++ tail).
  rewrite (orderedMarker_numeral d _ Hd).
  replace (drop (S (length d)) (d ++ c_dot :: c_space :: t ++ tail))
    with (c_space :: t ++ tail)
    by (symmetry; change (d ++ c_dot :: c_space :: t ++ tail)
                    with (d ++ [c_dot] ++ c_space :: t ++ tail);
        rewrite app_assoc; apply drop_app_exact; rewrite length_app; cbn [length]; lia).
  rewrite (spaceThenText_item t tail Ht)
    by (destruct tail as [|c tail]; [exact I|subst c; reflexivity]).
  replace (d ++ c_dot :: c_space :: t ++ tail) with ((d ++ c_dot :: c_space :: t) ++ tail)
    by (rewrite <- app_assoc; reflexivity).
  rewrite (drop_app_exact _ tail)
    by (rewrite length_app; cbn [length]; lia).
  f_equal. rewrite length_app. cbn [length].
  destruct tail as [|c tail]; [lia|]. subst c. change (c_lf =? c_lf) with true. cbv iota. lia.
Qed.

Lemma listBlockLen_skip marker x : forall rest,
  listBlockLen marker (length x) (x ++ rest) = (length x + listBlockLen marker 0 rest)%nat.
Proof.
  induction x as [|c x IH]; intros rest; [reflexivity|].
  cbn [length app listBlockLen]. rewrite IH. reflexivity.
Qed.

Lemma listBlockLen_round marker x rest :
  x <> [] ->
  listItemLen marker (x ++ rest) = Some (length x) ->
  listBlockLen marker 0 (x ++ rest) = (length x + listBlockLen marker 0 rest)%nat.
Proof.
  intros Hne H. destruct x as [|c x]; [congruence|].
  cbn [app length] in *.
  change (listBlockLen marker 0 (c :: x ++ rest))
    with (match listItemLen marker (c :: x ++ rest) with
          | Some (S k) => S (listBlockLen marker k (x ++ rest))
          | _ => 0%nat
          end).
  rewrite H, listBlockLen_skip. reflexivity.
Qed.

Lemma listLine_nonempty item : isNumeral (fst item) -> listLine item <> [].
Proof.
  intros [Hne _]. unfold listLine. destruct (fst item); [congruence|discriminate].
Qed.

(** The rounds of the pattern take the whole run of list lines. *)
Lemma listBlockLen_lines items :
  Forall (fun it => isNumeral (fst it) /\ isItemText (snd it)) items ->
  listBlockLen orderedMarker 0 (joinLines (List.map listLine items))
  = length (joinLines (List.map listLine items)).
Proof.
  induction 1 as [|item rest [Hd Ht] Hrest IH]; [reflexivity|].
  destruct rest as [|item2 rest].
  - cbn [List.map joinLines].
    rewrite <- (app_nil_r (listLine item)) at 1.
    rewrite listBlockLen_round.
    + cbn. lia.
    + apply listLine_nonempty, Hd.
    + rewrite (listItemLen_line item [] Hd Ht I). f_equal. lia.
  - cbn [List.map] in *. rewrite joinLines_cons by discriminate.
    set (tl := joinLines (listLine item2 :: List.map listLine rest)) in *.
    change (listLine item ++ c_lf :: tl) with (listLine item ++ [c_lf] ++ tl).
    rewrite app_assoc.
    rewrite listBlockLen_round.
    + rewrite IH, !length_app. reflexivity.
    + destruct (listLine item); discriminate.
    + rewrite <- app_assoc. cbn [app].
      rewrite (listItemLen_line item (c_lf :: tl) Hd Ht eq_refl).
      rewrite length_app. reflexivity.
Qed.

(** *** The items of the block *)

Lemma trim_solid s : startsSolid s -> startsSolid (rev s) -> trim s = s.
Proof.
  intros H1 H2. unfold trim, trimEnd, trimStart.
  destruct s as [|c s]; [destruct H1|]. cbn [spanLen]. cbn in H1. rewrite H1.
  change (drop 0 (c :: s)) with (c :: s).
  destruct (rev (c :: s)) as [|y r] eqn:E; [destruct H2|].
  cbn [spanLen]. cbn in H2. rewrite H2.
  change (drop 0 (y :: r)) with (y :: r). rewrite <- E. apply rev_involutive.
Qed.

Lemma startsSolid_app s rest : startsSolid s -> startsSolid (s ++ rest).
Proof. destruct s; [intros []|exact id]. Qed.

Lemma startsSolid_rev_app pre s : startsSolid (rev s) -> startsSolid (rev (pre ++ s)).
Proof. intros H. rewrite rev_app_distr. apply startsSolid_app, H. Qed.

Lemma listLine_startsSolid item : isNumeral (fst item) -> startsSolid (listLine item).
Proof.
  intros [Hne Hd]. unfold listLine. destruct (fst item) as [|c d]; [congruence|].
  apply noneOf_cons in Hd as [Hc _]. apply negb_false_iff in Hc.
  apply isDigit_not_special in Hc as (_ & Hws & _). exact Hws.
Qed.

Lemma listLine_endsSolid item : isItemText (snd item) -> startsSolid (rev (listLine item)).
Proof.
  intros (_ & _ & H). unfold listLine. rewrite app_assoc. apply startsSolid_rev_app, H.
Qed.

Lemma joinLines_startsSolid l rest : startsSolid l -> startsSolid (joinLines (l :: rest)).
Proof.
  intros H. destruct rest; [exact H|]. rewrite joinLines_cons by discriminate.
  apply startsSolid_app, H.
Qed.

Lemma joinLines_endsSolid lines :
  lines <> [] -> Forall (fun l => startsSolid (rev l)) lines ->
  startsSolid (rev (joinLines lines)).
Proof.
  intros Hne H. induction H as [|l rest Hl Hrest IH]; [congruence|].
  destruct rest as [|l2 rest]; [exact Hl|].
  rewrite joinLines_cons by discriminate.
  change (l ++ c_lf :: joinLines (l2 :: rest)) with (l ++ [c_lf] ++ joinLines (l2 :: rest)).
  rewrite app_assoc. apply startsSolid_rev_app, IH. discriminate.
Qed.

Lemma splitOn_no_sep sep l : noneOf (N.eqb sep) l -> splitOn sep l = [l].
Proof.
  induction 1 as [|c l Hc Hl IH]; [reflexivity|].
  cbn [splitOn]. rewrite N.eqb_sym, Hc, IH. reflexivity.
Qed.

Lemma splitOn_line sep l rest :
  noneOf (N.eqb sep) l -> splitOn sep (l ++ sep :: rest) = l :: splitOn sep rest.
Proof.
  induction 1 as [|c l Hc Hl IH]; cbn [app splitOn].
  - rewrite N.eqb_refl. reflexivity.
  - rewrite N.eqb_sym, Hc, IH. reflexivity.
Qed.

Lemma splitOn_joinLines lines :
  lines <> [] -> Forall (noneOf (N.eqb c_lf)) lines ->
  splitOn c_lf (joinLines lines) = lines.
Proof.
  intros Hne H. induction H as [|l rest Hl Hrest IH]; [congruence|].
  destruct rest as [|l2 rest]; [apply splitOn_no_sep, Hl|].
  rewrite joinLines_cons by discriminate.
  rewrite splitOn_line by exact Hl. rewrite IH by discriminate. reflexivity.
Qed.

Lemma stripMarker_line item :
  isNumeral (fst item) -> isItemText (snd item) ->
  stripMarker orderedMarker (listLine item) = snd item.
Proof.
  intros Hd (Hplain & Hhead & _). destruct item as [d t]. cbn [fst snd] in *.
  unfold stripMarker, listLine. cbn [fst snd].
  change (lit ". ") with [c_dot; c_space]. cbn [app].
  rewrite (numeral_spanLen_ws d _ Hd). cbn [Nat.add].
  change (drop 0 (d ++ c_dot :: c_space :: t)) with (d ++ c_dot :: c_space :: t).
  rewrite (orderedMarker_numeral d _ Hd).
  replace (drop (S (length d)) (d ++ c_dot :: c_space :: t)) with (c_space :: t)
    by (symmetry; change (d ++ c_dot :: c_space :: t) with (d ++ [c_dot] ++ c_space :: t);
        rewrite app_assoc; apply drop_app_exact; rewrite length_app; cbn [length]; lia).
  cbn [spanLen]. change (isWhiteSpace c_space) with true. cbv iota.
  rewrite <- (app_nil_r t) at 1. rewrite (startsSolid_spanLen t [] Hhead).
  change (d ++ c_dot :: c_space :: t) with (d ++ [c_dot; c_space] ++ t).
  rewrite app_assoc. apply drop_app_exact. rewrite length_app. cbn [length]. lia.
Qed.

Lemma listItems_lines items :
  items <> [] ->
  Forall (fun it => isNumeral (fst it) /\ isItemText (snd it)) items ->
  listItems orderedMarker (joinLines (List.map listLine items))
  = concat (List.map listItemHtml items).
Proof.
  intros Hne H. unfold listItems.
  assert (Hmap : List.map listLine items <> []) by (destruct items; [congruence|discriminate]).
  rewrite trim_solid.
  - rewrite splitOn_joinLines; [|exact Hmap|].
    + rewrite !List.map_map. f_equal.
      clear Hne Hmap. induction H as [|item rest [Hd Ht] Hrest IH]; [reflexivity|].
      cbn [List.map]. rewrite IH. unfold listItemHtml.
      rewrite stripMarker_line by assumption. reflexivity.
    + clear Hne Hmap. induction H as [|item rest [Hd Ht] Hrest IH]; [constructor|].
      cbn [List.map]. constructor; [|exact IH].
      apply plain_no_lf, listLine_plain; [apply Hd|apply Ht].
  - destruct H as [|item rest [Hd Ht] Hrest]; [congruence|].
    cbn [List.map]. apply joinLines_startsSolid, listLine_startsSolid, Hd.
  - apply joinLines_endsSolid; [exact Hmap|].
    clear Hne Hmap. induction H as [|item rest [Hd Ht] Hrest IH]; [constructor|].
    cbn [List.map]. constructor; [apply listLine_endsSolid, Ht|exact IH].
Qed.

(** *** Patterns anchored at the start of a line, on several lines *)

Lemma replaceAll_inside_line (m : matcher) l : forall rest,
  (forall s, m false s = None) ->
  noneOf isLineTerminator l ->
  replaceAll m false 0 (l ++ c_lf :: rest) = l ++ c_lf :: replaceAll m true 0 rest.
Proof.
  intros rest Hm. induction 1 as [|c l Hc Hl IH]; cbn [app replaceAll].
  - rewrite Hm. reflexivity.
  - rewrite Hm, Hc, IH. reflexivity.
Qed.

Lemma replaceAll_digit_lines (m : matcher) lines :
  (forall s, m false s = None) ->
  (forall c r, isDigit c = true -> m true (c :: r) = None) ->
  Forall (fun l => noneOf isLineTerminator l
                   /\ match l with c :: _ => isDigit c = true | [] => False end) lines ->
  replaceAll m true 0 (joinLines lines) = joinLines lines.
Proof.
  intros Hin Hdigit H. induction H as [|l rest [Hl Hhead] Hrest IH]; [reflexivity|].
  destruct l as [|c l]; [destruct Hhead|].
  apply noneOf_cons in Hl as [Hc Hl].
  destruct rest as [|l2 rest].
  - cbn [joinLines replaceAll]. rewrite (Hdigit c l Hhead), Hc.
    rewrite (replaceAll_anchored m Hin l Hl). reflexivity.
  - rewrite joinLines_cons by discriminate. cbn [app replaceAll].
    rewrite (Hdigit c _ Hhead), Hc.
    rewrite (replaceAll_inside_line m l _ Hin Hl), IH. reflexivity.
Qed.

Lemma headingMatcher_digit c r : isDigit c = true -> headingMatcher true (c :: r) = None.
Proof.
  intros H. apply isDigit_not_special in H as (_ & _ & Hh & _).
  unfold headingMatcher. cbn [spanLen]. rewrite N.eqb_sym, Hh. reflexivity.
Qed.

Lemma blockquoteMatcher_digit c r : isDigit c = true -> blockquoteMatcher true (c :: r) = None.
Proof.
  intros H. apply isDigit_not_special in H as (_ & _ & _ & Hg & _).
  unfold blockquoteMatcher. rewrite Hg. reflexivity.
Qed.

Lemma orderedListMatcher_block md :
  md <> [] ->
  listBlockLen orderedMarker 0 md = length md ->
  orderedListMatcher true md
  = Some (lit "<ol>" ++ listItems orderedMarker md ++ lit "</ol>", length md).
Proof.
  intros Hne H. unfold orderedListMatcher, listMatcher. rewrite H.
  destruct md as [|c md]; [congruence|]. cbn [length].
  change (S (length md)) with (length (c :: md)). rewrite firstn_all. reflexivity.
Qed.

Lemma replaceRegex_whole (m : matcher) md rep :
  md <> [] -> m true md = Some (rep, length md) -> replaceRegex m md = rep.
Proof.
  intros Hne H. unfold replaceRegex. destruct md as [|c md]; [congruence|].
  rewrite (replaceAll_match _ _ _ _ _ _ H).
  cbn [length Nat.pred]. rewrite replaceAll_skip_all. apply app_nil_r.
Qed.

Lemma listItemHtml_noneOf (p : N -> bool) items :
  noneOf p (lit "<li></li>") ->
  Forall (fun it => noneOf p (snd it)) items ->
  noneOf p (concat (List.map listItemHtml items)).
Proof.
  intros Htag H.
  change (lit "<li></li>") with (lit "<li>" ++ lit "</li>") in Htag.
  apply noneOf_app in Htag as [H1 H2].
  induction H as [|item rest Hitem Hrest IH]; [constructor|].
  cbn [List.map concat]. unfold listItemHtml at 1. noneOf_parts.
Qed.

(** A run of list lines that is the whole input: one list, one item per
    line in the order of the lines, whatever the numbers. *)
Theorem ordered_list_run_rendering (items : list (jstring * jstring)) :
  items <> [] ->
  Forall (fun it => isNumeral (fst it) /\ isItemText (snd it)) items ->
  renderMarkdown (joinLines (List.map listLine items))
  = lit "<ol>" ++ concat (List.map listItemHtml items) ++ lit "</ol>".
Proof.
  intros Hne H.
  pose (md := joinLines (List.map listLine items)).
  assert (Hlines : Forall (noneOf isSpecial) (List.map listLine items)).
  { clear Hne md. induction H as [|item rest [Hd Ht] Hrest IH]; [constructor|].
    cbn [List.map]. constructor; [apply listLine_plain; [apply Hd|apply Ht]|exact IH]. }
  assert (Htexts : Forall (fun it => noneOf isSpecial (snd it)) items).
  { eapply Forall_impl; [exact H|]. intros it [_ Ht]. apply Ht. }
  assert (Hmd : forall p : N -> bool,
             p c_lf = false -> (forall s, noneOf isSpecial s -> noneOf p s) -> noneOf p md).
  { intros p Hlf Hp. apply joinLines_noneOf; [exact Hlf|].
    eapply Forall_impl; [exact Hlines|]. exact Hp. }
  assert (Hmdne : md <> []).
  { subst md. destruct H as [|item rest [Hd Ht] Hrest]; [congruence|].
    cbn [List.map]. pose proof (joinLines_startsSolid (listLine item) (List.map listLine rest)
                                  (listLine_startsSolid item Hd)) as Hs.
    destruct (joinLines _); [destruct Hs|discriminate]. }
  unfold renderMarkdown.
  rewrite extractCodeBlocks_no_backtick by (apply Hmd; [reflexivity|exact plain_no_backtick]).
  rewrite escapeHtml_id by (apply Hmd; [reflexivity|exact plain_no_escape]).
  cbn [restoreCodeBlocks]. unfold formatText.
  assert (Hdl : Forall (fun l => noneOf isLineTerminator l
                                 /\ match l with c :: _ => isDigit c = true | [] => False end)
                  (List.map listLine items)).
  { clear Hne md Hlines Htexts Hmd Hmdne.
    induction H as [|item rest [Hd Ht] Hrest IH]; [constructor|].
    cbn [List.map]. constructor; [|exact IH]. split.
    - apply plain_no_lineTerminator, listLine_plain; [apply Hd|apply Ht].
    - destruct Hd as [Hdne Hd]. unfold listLine. destruct (fst item) as [|c d]; [congruence|].
      apply noneOf_cons in Hd as [Hc _]. apply negb_false_iff, Hc. }
  unfold replaceRegex at 8.
  rewrite (replaceAll_digit_lines headingMatcher _ headingMatcher_inside headingMatcher_digit Hdl).
  unfold replaceRegex at 7.
  rewrite (replaceAll_digit_lines blockquoteMatcher _ blockquoteMatcher_inside
             blockquoteMatcher_digit Hdl).
  change (joinLines (List.map listLine items)) with md.
  (* the list *)
  rewrite (replaceRegex_whole orderedListMatcher md _ Hmdne
             (orderedListMatcher_block md Hmdne (listBlockLen_lines items H))).
  subst md. rewrite (listItems_lines items Hne H).
  clear Hmdne Hmd Hdl.
  set (body := concat (List.map listItemHtml items)).
  assert (Hbody : forall p : N -> bool,
             noneOf p (lit "<li></li>") -> (forall s, noneOf isSpecial s -> noneOf p s) ->
             noneOf p body).
  { intros p Htag Hp. apply listItemHtml_noneOf; [exact Htag|].
    eapply Forall_impl; [exact Htexts|]. intros it. apply Hp. }
  (* the other steps leave the list alone *)
  rewrite (replaceRegex_anchored unorderedListMatcher);
    [|reflexivity
     |noneOf_parts; apply Hbody; [apply noneOf_literal; reflexivity|exact plain_no_lineTerminator]
     |reflexivity].
  unfold replaceRegex.
  rewrite (replaceAll_no_trigger_id inlineCodeMatcher (fun c => c =? c_backtick)
             inlineCodeMatcher_trigger)
    by (noneOf_parts; apply Hbody; [apply noneOf_literal; reflexivity|exact plain_no_backtick]).
  rewrite (replaceAll_no_trigger_id boldMatcher (fun c => c =? c_star) boldMatcher_trigger)
    by (noneOf_parts; apply Hbody; [apply noneOf_literal; reflexivity|exact plain_no_star]).
  rewrite (replaceAll_no_trigger_id italicMatcher isEmphasisMark italicMatcher_trigger)
    by (noneOf_parts; apply Hbody; [apply noneOf_literal; reflexivity|exact plain_no_emphasis]).
  rewrite (replaceAll_no_trigger_id linkMatcher (fun c => c =? c_lbracket) linkMatcher_trigger)
    by (noneOf_parts; apply Hbody; [apply noneOf_literal; reflexivity|exact plain_no_bracket]).
  unfold wrapParagraphs.
  rewrite splitParagraphs_no_lf
    by (noneOf_parts; apply Hbody; [apply noneOf_literal; reflexivity|exact plain_no_lf]).
  cbn [List.map concat]. rewrite app_nil_r.
  unfold renderParagraph.
  replace (lit "<ol>" ++ body ++ lit "</ol>")
    with (c_lt :: (lit "ol>" ++ body ++ lit "</ol") ++ [c_gt])
    by (list_norm; reflexivity).
  rewrite trim_id by reflexivity.
  change (isBlockElement (c_lt :: (lit "ol>" ++ body ++ lit "</ol") ++ [c_gt])) with true.
  reflexivity.
Qed.

Lemma ordered_list_run_rendering_witness :
  renderMarkdown
    (joinLines (List.map listLine
       [(lit "1", lit "first item"); (lit "1", lit "second"); (lit "42", lit "third")]))
  = lit "<ol>"
      ++ concat (List.map listItemHtml
           [(lit "1", lit "first item"); (lit "1", lit "second"); (lit "42", lit "third")])
      ++ lit "</ol>".
Proof.
  apply ordered_list_run_rendering; [discriminate|].
  repeat constructor; try discriminate; try (apply noneOf_literal; reflexivity);
    reflexivity.
Defined.

(** ** Sample renderings *)

(** The scenario of the specification. *)
Example render_bold_and_code :
  renderMarkdown (lit "**bold** and `code`")
  = lit "<p><strong>bold</strong> and <code>code</code></p>".
Proof. vm_compute. reflexivity. Qed.

Example render_fenced_markup :
  renderMarkdown (lit "see ```<b>x</b>``` here")
  = lit "<p>see <pre><code>&lt;b&gt;x&lt;/b&gt;</code></pre> here</p>".
Proof. vm_compute. reflexivity. Qed.

Example render_ordered_list :
  renderMarkdown (lit "1. a" ++ [c_lf] ++ lit "7. b" ++ [c_lf] ++ lit "3. c")
  = lit "<ol><li>a</li><li>b</li><li>c</li></ol>".
Proof. vm_compute. reflexivity. Qed.

(** When nothing stands between the inner closing star and the outer
    closing stars, the lazy bold group ends at the first two of the three
    stars and the elements overlap. *)
Example render_bold_italic_shared_close :
  renderMarkdown (lit "**a *b***") = lit "<p><strong>a <em>b</strong></em></p>".
Proof. vm_compute. reflexivity. Qed.

(** Dollar patterns in a fenced block are expanded by step 11. *)
Example render_fenced_dollar :
  renderMarkdown (lit "```gcc -c $< -o $@```")
  = lit "<p><pre><code>gcc -c @@CODEBLOCK0@@lt; -o $@</code></pre></p>".
Proof. vm_compute. reflexivity. Qed.

(** Step 2 has replaced every [>] before step 4 looks for one. *)
Example render_blockquote_line :
  renderMarkdown (lit "> quoted") = lit "<p>&gt; quoted</p>".
Proof. vm_compute. reflexivity. Qed.

(** The list pattern starts at the empty line before the list, so one
    line feed is left after the heading and step 10 sees a single block. *)
Example render_heading_and_list :
  renderMarkdown (lit "## Plan" ++ [c_lf; c_lf] ++ lit "- one" ++ [c_lf] ++ lit "- two")
  = lit "<h2>Plan</h2>" ++ [c_lf] ++ lit "<ul><li>one</li><li>two</li></ul>".
Proof. vm_compute. reflexivity. Qed.

(** White space in the patterns includes line feeds: the heading text
    may stand on the next line, and a marker followed only by spaces
    gives the last space to the text. *)
Example render_heading_text_on_next_line :
  renderMarkdown (lit "#" ++ [c_lf] ++ lit "Title") = lit "<h1>Title</h1>".
Proof. vm_compute. reflexivity. Qed.

Example render_marker_and_spaces :
  renderMarkdown (lit "1.  ") = lit "<ol><li>1.</li></ol>".
Proof. vm_compute. reflexivity. Qed.

Example render_seven_hashes :
  renderMarkdown (lit "####### x") = lit "<p>####### x</p>".
Proof. vm_compute. reflexivity. Qed.

Example render_link :
  renderMarkdown (lit "[docs](https://example.org/a?b=1)")
  = lit "<p><a href=" ++ [c_dquote] ++ lit "https://example.org/a?b=1" ++ [c_dquote]
      ++ lit " target=" ++ [c_dquote] ++ lit "_blank" ++ [c_dquote]
      ++ lit " rel=" ++ [c_dquote] ++ lit "noopener noreferrer" ++ [c_dquote]
      ++ lit ">docs</a></p>".
Proof. vm_compute. reflexivity. Qed.

(** C1.  The blocks are put back by [String.prototype.replace] with the
    block as the replacement text, in which a dollar sign followed by an
    ampersand or by a backtick stands for the placeholder or for what
    precedes the placeholder in the page; and a placeholder is put back
    wherever the other steps have carried it.  Three inputs:
    - a Makefile line in a fenced block: the [<] after the dollar sign
      is escaped, the dollar sign and the ampersand are then replaced
      with the placeholder, and the [<] is shown neither as it is nor
      escaped;
    - two blocks, the second with a dollar sign and a backtick in it:
      the page up to the second block, with the tags of the paragraph
      and of the first block, is copied into the second code element,
      as markup;
    - a block that stands as the address of a link: the block is put
      back inside the [href] attribute, the copied start of the page
      closes the attribute value, and the rest of the content of the
      block is an attribute of the link. *)
Theorem fenced_code_reaches_output_as_markup :
  renderMarkdown (lit "```gcc -c $< -o $@```")
  = lit "<p><pre><code>gcc -c @@CODEBLOCK0@@lt; -o $@</code></pre></p>"
  /\ renderMarkdown (lit "```a``` ```<b>$` ```")
     = lit "<p><pre><code>a</code></pre> <pre><code>&lt;b&gt;"
         ++ lit "<p><pre><code>a</code></pre> " ++ lit "</code></pre></p>"
  /\ renderMarkdown (lit "[x](```<i>$` onmouseover=alert(1)//```)")
     = lit "<p><a href=" ++ [c_dquote]
         ++ lit "<pre><code>&lt;i&gt;" ++ lit "<p><a href=" ++ [c_dquote]
         ++ lit " onmouseover=alert(1)//</code></pre>" ++ [c_dquote]
         ++ lit " target=" ++ [c_dquote] ++ lit "_blank" ++ [c_dquote]
         ++ lit " rel=" ++ [c_dquote] ++ lit "noopener noreferrer" ++ [c_dquote]
         ++ lit ">x</a></p>".
Proof. vm_compute. repeat split; reflexivity. Qed.

(** C7.  Bold is applied first, and the italic step then pairs single
    stars across the tags that the bold step has written.  After
    [2 * 3 = 6 and] the span [**a *b* c**] is wrapped in [strong], and
    the italic step pairs the star of the product with the first star
    inside the span: [em] opens before [strong] and closes inside it,
    and [b] is not emphasised.  A span that runs over two lines is not
    bold at all (the dot of the bold pattern stops at a line feed, the
    italic pattern does not): each double delimiter is split, and there
    are two italic spans, neither of them around [b]. *)
Theorem bold_and_italic_overlap :
  renderMarkdown (lit "2 * 3 = 6 and **a *b* c**")
  = lit "<p>2 <em> 3 = 6 and <strong>a </em>b* c</strong></p>"
  /\ renderMarkdown (lit "**a *b* c" ++ [c_lf] ++ lit "d**")
     = lit "<p>*<em>a </em>b<em> c" ++ [c_lf] ++ lit "d</em>*</p>".
Proof. vm_compute. split; reflexivity. Qed.

(** C6.  The content of an inline code span is escaped twice, once with
    the rest of the text in step 2 and once more in step 7: the input
    made of a backtick, [<] and a backtick is rendered with [&amp;lt;]
    inside the code element, where one escaping would give [&lt;]. *)
Theorem inline_code_escaped_twice :
  renderMarkdown (lit "`<`") = lit "<p><code>&amp;lt;</code></p>"
  /\ renderMarkdown (lit "`<`") <> lit "<p><code>&lt;</code></p>".
Proof. split; [vm_compute; reflexivity|vm_compute; discriminate]. Qed.

(** C8.  Two numbered lines separated by an empty line are two runs of
    one line each, yet they are rendered as a single list of three
    items, the second one empty: the white space that may come before
    a marker takes the line feeds, and the empty line becomes an item. *)
Theorem ordered_list_blank_line_item :
  renderMarkdown (lit "1. a" ++ [c_lf; c_lf] ++ lit "2. b")
  = lit "<ol><li>a</li><li></li><li>b</li></ol>".
Proof. vm_compute. reflexivity. Qed.

(** ** Inline code *)

Lemma extractCodeBlocks_no_fence s : forall idx,
  indexOf fence s = None -> extractCodeBlocks 0 idx s = (s, []).
Proof.
  induction s as [|c s IH]; intros idx H; [reflexivity|].
  cbn [indexOf] in H. cbn [extractCodeBlocks].
  destruct (startsWith fence (c :: s)); [discriminate|].
  destruct (indexOf fence s); [discriminate|].
  rewrite IH by reflexivity. reflexivity.
Qed.

Lemma indexOf_fence_none s tail :
  noneOf (fun c => c =? c_backtick) s ->
  indexOf fence tail = None ->
  indexOf fence (s ++ tail) = None.
Proof.
  intros Hs Htail. induction Hs as [|c s Hc Hs IH]; [exact Htail|].
  cbn [app indexOf]. unfold fence at 1. lits. cbn [startsWith].
  rewrite (N.eqb_sym 96 c). change 96 with c_backtick. rewrite Hc. cbn [andb].
  rewrite IH. reflexivity.
Qed.

Lemma escapeHtml_nonempty s : s <> [] -> escapeHtml s <> [].
Proof.
  assert (H : forall c rep t, rep <> [] -> t <> [] -> replaceChar c rep t <> []).
  { intros c rep [|x t] Hrep Ht; [congruence|]. cbn.
    destruct (x =? c); [|discriminate].
    destruct rep; [congruence|discriminate]. }
  intros Hs. unfold escapeHtml.
  repeat (apply H; [discriminate|]). exact Hs.
Qed.

Lemma inlineCodeMatcher_span bol e :
  e <> [] -> noneOf (fun c => c =? c_backtick) e ->
  inlineCodeMatcher bol (c_backtick :: e ++ [c_backtick])
  = Some (lit "<code>" ++ escapeHtml e ++ lit "</code>", (length e + 2)%nat).
Proof.
  intros Hne He. unfold inlineCodeMatcher.
  change (c_backtick =? c_backtick) with true. cbv iota zeta.
  rewrite (spanLen_all _ e [c_backtick]) by first [apply noneOf_negb; exact He | reflexivity].
  rewrite take_app_length.
  destruct e as [|y e]; [congruence|]. cbn [length].
  change (drop (S (length e)) ((y :: e) ++ [c_backtick]))
    with (drop (length e) (e ++ [c_backtick])).
  rewrite drop_app_length. reflexivity.
Qed.

Lemma breaksInlineCode_false c :
  breaksInlineCode c = false ->
  isLineTerminator c = false /\ (c =? c_backtick) = false /\ (c =? c_star) = false
  /\ (c =? c_underscore) = false /\ (c =? c_lbracket) = false.
Proof. unfold breaksInlineCode. rewrite !orb_false_iff. tauto. Qed.

(** X6.  An inline code span that is the whole input, on one line and
    without backtick, star, underscore or opening square bracket in it:
    its content reaches the output escaped twice. *)
Lemma inline_code_span_rendering s :
  s <> [] -> noneOf breaksInlineCode s ->
  renderMarkdown (lit "`" ++ s ++ lit "`")
  = lit "<p><code>" ++ escapeHtml (escapeHtml s) ++ lit "</code></p>".
Proof.
  intros Hne Hs.
  assert (Hlt : noneOf isLineTerminator s)
    by (eapply noneOf_weaken; [|exact Hs]; intros c H; apply breaksInlineCode_false in H; tauto).
  assert (Hbt : noneOf (fun c => c =? c_backtick) s)
    by (eapply noneOf_weaken; [|exact Hs]; intros c H; apply breaksInlineCode_false in H; tauto).
  assert (Hem : noneOf isEmphasisMark s).
  { eapply noneOf_weaken; [|exact Hs]. intros c H.
    apply breaksInlineCode_false in H as (_ & _ & H1 & H2 & _).
    unfold isEmphasisMark. rewrite H1, H2. reflexivity. }
  assert (Hst : noneOf (fun c => c =? c_star) s)
    by (eapply noneOf_weaken; [|exact Hs]; intros c H; apply breaksInlineCode_false in H; tauto).
  assert (Hbr : noneOf (fun c => c =? c_lbracket) s)
    by (eapply noneOf_weaken; [|exact Hs]; intros c H; apply breaksInlineCode_false in H; tauto).
  assert (Hlf : noneOf (N.eqb c_lf) s).
  { eapply noneOf_weaken; [|exact Hlt]. intros c H.
    unfold isLineTerminator in H. rewrite !orb_false_iff in H. rewrite N.eqb_sym. tauto. }
  assert (Hesc : forall (p : N -> bool) t,
             noneOf p (lit "&amp;&lt;&gt;&quot;&#39;") -> noneOf p t -> noneOf p (escapeHtml t))
    by (intros; apply escapeHtml_noneOf; assumption).
  set (e := escapeHtml s).
  set (ee := escapeHtml e).
  unfold renderMarkdown.
  change (lit "`" ++ s ++ lit "`") with (c_backtick :: s ++ [c_backtick]).
  rewrite extractCodeBlocks_no_fence.
  2:{ cbn [indexOf]. destruct s as [|y s]; [congruence|].
      apply noneOf_cons in Hbt as [Hy Hbt].
      unfold fence at 1. lits. cbn [app startsWith].
      rewrite (N.eqb_sym 96 y). change (y =? 96) with (y =? c_backtick). rewrite Hy.
      cbn [andb]. change (y :: s ++ [c_backtick]) with ((y :: s) ++ [c_backtick]).
      rewrite indexOf_fence_none; [reflexivity|constructor; assumption|reflexivity]. }
  cbn [restoreCodeBlocks].
  change (c_backtick :: s ++ [c_backtick]) with ([c_backtick] ++ s ++ [c_backtick]).
  rewrite !escapeHtml_app. fold e.
  change (escapeHtml [c_backtick]) with [c_backtick]. cbn [app].
  assert (Hene : e <> []) by (apply escapeHtml_nonempty, Hne).
  assert (Hx : forall p, p c_backtick = false -> noneOf p e ->
                         noneOf p (c_backtick :: e ++ [c_backtick])).
  { intros p Hp Hpe. constructor; [exact Hp|]. apply noneOf_app. split; [exact Hpe|].
    constructor; [exact Hp|constructor]. }
  unfold formatText.
  rewrite (replaceRegex_anchored headingMatcher);
    [|reflexivity|apply Hx; [reflexivity|apply Hesc; [apply noneOf_literal; reflexivity|assumption]]
     |reflexivity].
  rewrite (replaceRegex_anchored blockquoteMatcher);
    [|reflexivity|apply Hx; [reflexivity|apply Hesc; [apply noneOf_literal; reflexivity|assumption]]
     |reflexivity].
  rewrite (replaceRegex_anchored orderedListMatcher);
    [|reflexivity|apply Hx; [reflexivity|apply Hesc; [apply noneOf_literal; reflexivity|assumption]]
     |reflexivity].
  rewrite (replaceRegex_anchored unorderedListMatcher);
    [|reflexivity|apply Hx; [reflexivity|apply Hesc; [apply noneOf_literal; reflexivity|assumption]]
     |reflexivity].
  unfold replaceRegex.
  rewrite (replaceAll_match _ _ _ _ _ _
             (inlineCodeMatcher_span true e Hene
                ltac:(apply Hesc; [apply noneOf_literal; reflexivity|assumption]))).
  replace (Nat.pred (length e + 2)) with (length (e ++ [c_backtick]))
    by (rewrite length_app; cbn [length]; lia).
  rewrite replaceAll_skip_all, app_nil_r. fold ee.
  assert (Hee : forall p, noneOf p (lit "&amp;&lt;&gt;&quot;&#39;") -> noneOf p s -> noneOf p ee)
    by (intros p Hp Hps; subst ee e; apply Hesc; [exact Hp|apply Hesc; assumption]).
  rewrite (replaceAll_no_trigger_id boldMatcher (fun c => c =? c_star) boldMatcher_trigger)
    by (noneOf_parts; apply Hee; [apply noneOf_literal; reflexivity|assumption]).
  rewrite (replaceAll_no_trigger_id italicMatcher isEmphasisMark italicMatcher_trigger)
    by (noneOf_parts; apply Hee; [apply noneOf_literal; reflexivity|assumption]).
  rewrite (replaceAll_no_trigger_id linkMatcher (fun c => c =? c_lbracket) linkMatcher_trigger)
    by (noneOf_parts; apply Hee; [apply noneOf_literal; reflexivity|assumption]).
  unfold wrapParagraphs.
  rewrite splitParagraphs_no_lf
    by (noneOf_parts; apply Hee; [apply noneOf_literal; reflexivity|assumption]).
  cbn [List.map concat]. rewrite app_nil_r.
  unfold renderParagraph.
  replace (lit "<code>" ++ ee ++ lit "</code>")
    with (c_lt :: (lit "code>" ++ ee ++ lit "</code") ++ [c_gt])
    by (list_norm; reflexivity).
  rewrite trim_id by reflexivity.
  change (isBlockElement (c_lt :: (lit "code>" ++ ee ++ lit "</code") ++ [c_gt])) with false.
  list_norm. reflexivity.
Qed.
